(** * Kustomize deployer: dependency resolution and render/deploy pipeline

    Shallow embedding of [pkg/skaffold/deploy/kustomize.go].

    - Go's [(T, error)] results are values of [result T].
    - The file system ([os.Stat], [ioutil.ReadFile]) and the YAML parser are
      parameters of the resolver; the [UnmarshalYAML] hooks of the source are
      applied to the parsed document.
    - [dependenciesForKustomization] recurses through directories without a
      bound in the source; the embedding takes a fuel argument and answers
      [None] when the fuel runs out.
    - External collaborators of the deploy pipeline (the kustomize command,
      kubectl, the manifest transforms) are parameters; each call is recorded
      in a log of events so that "is not called" can be stated. *)

From Stdlib Require Import ZArith Ascii String.
From stdpp Require Import base option list sorting gmap strings.

Local Open Scope string_scope.
Local Open Scope list_scope.

(** ** Errors and results *)

(** A Go [error]: a message, possibly wrapping a cause ([fmt.Errorf] with
    the verb [%w]). *)
Inductive error : Type :=
| ErrorString (msg : string)
| Errorf (prefix : string) (cause : error).

(** A Go [(T, error)] pair: either the value (error [nil]) or the error. *)
Inductive result (A : Type) : Type :=
| Ok (a : A)
| Fail (e : error).
Arguments Ok {A} a.
Arguments Fail {A} e.

(** ** Go's [strings] and [path/filepath] (Unix) *)

Module strings.

(** [strings.Split(s, sep)] for a one-byte separator. *)
Fixpoint Split (sep : ascii) (s : string) : list string :=
  match s with
  | EmptyString => [""]
  | String c s' =>
      if Ascii.eqb c sep then "" :: Split sep s'
      else match Split sep s' with
           | h :: t => String c h :: t
           | [] => [String c ""]
           end
  end.

(** [strings.Join(elems, sep)]. *)
Fixpoint Join (elems : list string) (sep : string) : string :=
  match elems with
  | [] => ""
  | [e] => e
  | e :: rest => e +:+ sep +:+ Join rest sep
  end.

(** [strings.HasPrefix(s, prefix)]. *)
Definition HasPrefix (s pre : string) : bool := String.prefix pre s.

End strings.

Module filepath.

Definition Separator : ascii := "/"%char.

(** [filepath.IsAbs] on Unix: the path starts with a slash. *)
Definition IsAbs (path : string) : bool := strings.HasPrefix path "/".

(** One path element of [Clean]. [out] is the stack of elements written so
    far, last element first. An element [..] removes the element before it
    when there is one that is not itself [..]; at the start of a rooted
    path it is dropped; otherwise it is kept. *)
Definition cleanElem (rooted : bool) (out : list string) (e : string)
  : list string :=
  if (e =? "") || (e =? ".") then out
  else if e =? ".." then
    match out with
    | top :: rest =>
        if negb (top =? "..") then rest
        else if negb rooted then e :: out else out
    | [] => if negb rooted then [e] else out
    end
  else e :: out.

(** [filepath.Clean]: the shortest path equivalent to [path] by purely
    lexical processing. *)
Definition Clean (path : string) : string :=
  if path =? "" then "."
  else
    let rooted := IsAbs path in
    let out := fold_left (cleanElem rooted) (strings.Split Separator path) [] in
    if rooted then "/" +:+ strings.Join (rev out) "/"
    else match out with
         | [] => "."
         | _ => strings.Join (rev out) "/"
         end.

(** [filepath.Join(a, b)]: empty elements are ignored, the rest is joined
    with the separator and cleaned. *)
Definition Join (a b : string) : string :=
  if negb (a =? "") then Clean (a +:+ "/" +:+ b)
  else if negb (b =? "") then Clean b
  else "".

Fixpoint hasSeparator (s : string) : bool :=
  match s with
  | EmptyString => false
  | String c s' => Ascii.eqb c Separator || hasSeparator s'
  end.

(** [path[:i+1]] for [i] the index of the last separator, or the empty
    string when there is none. *)
Fixpoint upToLastSeparator (s : string) : string :=
  match s with
  | EmptyString => ""
  | String c s' =>
      if hasSeparator s' then String c (upToLastSeparator s')
      else if Ascii.eqb c Separator then String c "" else ""
  end.

(** [filepath.Dir]: all but the last element of [path], cleaned. *)
Definition Dir (path : string) : string := Clean (upToLastSeparator path).

(** [path] without its trailing separators. *)
Fixpoint trimTrailingSeparators (s : string) : string :=
  match s with
  | EmptyString => ""
  | String c s' =>
      let r := trimTrailingSeparators s' in
      if Ascii.eqb c Separator && (r =? "") then "" else String c r
  end.

(** [path[i+1:]] for [i] the index of the last separator, or [path] when
    there is none. *)
Fixpoint afterLastSeparator (s : string) : string :=
  match s with
  | EmptyString => ""
  | String c s' =>
      if hasSeparator s' then afterLastSeparator s'
      else if Ascii.eqb c Separator then s' else s
  end.

(** [filepath.Base]: the last element of [path]. *)
Definition Base (path : string) : string :=
  if path =? "" then "."
  else
    let path := afterLastSeparator (trimTrailingSeparators path) in
    if path =? "" then "/" else path.

End filepath.

(** ** The data model of a kustomization file *)

(** [patchPath]: the structured form of a [patches] entry. *)
Record patchPath : Type := mkPatchPath {
  Path : string;
  Patch : string;
}.

(** [patchWrapper] embeds a pointer to a [patchPath]; [None] is [nil]. *)
Record patchWrapper : Type := mkPatchWrapper {
  patchPath_ptr : option patchPath;
}.

(** [strategicMergePatch]: an entry of [patchesStrategicMerge]. *)
Record strategicMergePatch : Type := mkStrategicMergePatch {
  smPath : string;
  smPatch : string;
}.

Record patchJSON6902 : Type := mkPatchJSON6902 {
  jsonPath : string;
}.

(** [configMapGenerator] and [secretGenerator] have the same fields. *)
Record generator : Type := mkGenerator {
  Files : list string;
  Env : string;
  Envs : list string;
}.
Definition configMapGenerator : Type := generator.
Definition secretGenerator : Type := generator.

(** [kustomization] is the content of a kustomization.yaml file. *)
Record kustomization : Type := mkKustomization {
  Bases : list string;
  Resources : list string;
  Patches : list patchWrapper;
  PatchesStrategicMerge : list strategicMergePatch;
  CRDs : list string;
  PatchesJSON6902 : list patchJSON6902;
  ConfigMapGenerator : list configMapGenerator;
  SecretGenerator : list secretGenerator;
}.

Definition DefaultKustomizePath : string := ".".
Definition kustomizeFilePaths : list string :=
  ["kustomization.yaml"; "kustomization.yml"; "Kustomization"].
Definition basePath : string := "base".

(** ** YAML nodes and the [UnmarshalYAML] hooks *)

Module yamlv3.

(** [yaml.v3]'s [Style] is a [uint32] bit set; these are its constants
    ([1 << iota], starting with [TaggedStyle]). A plain scalar has style 0. *)
Definition Style : Type := Z.
Definition TaggedStyle : Style := 1%Z.
Definition DoubleQuotedStyle : Style := 2%Z.
Definition SingleQuotedStyle : Style := 4%Z.
Definition LiteralStyle : Style := 8%Z.
Definition FoldedStyle : Style := 16%Z.
Definition FlowStyle : Style := 32%Z.

(** The two fields of [yaml.v3]'s [Node] that the source reads, [Style]
    and [Value], and the field the decoder itself reads before it calls a
    hook, [Tag]: the parser gives every scalar its short tag, [!!null] for
    a plain [~], [null] or empty scalar, [!!str] for a quoted or block
    scalar and for any other plain text. *)
Record Node : Type := mkNode {
  NodeStyle : Style;
  Tag : string;
  Value : string;
}.

Definition nullTag : string := "!!null".
Definition strTag : string := "!!str".

(** The decoder does not call the [UnmarshalYAML] hook of a node whose tag
    is [!!null]; decoding such a node into a struct fails silently, and the
    sequence that holds it is built without the entry. *)
Definition isNull (node : Node) : bool := Tag node =? nullTag.

Definition handedToHook (node : Node) : bool := negb (isNull node).

End yamlv3.

(** [strategicMergePatch.UnmarshalYAML]: the receiver [p] is updated in
    place; the returned error is always [nil]. *)
Definition strategicMergePatch_UnmarshalYAML
    (p : strategicMergePatch) (node : yamlv3.Node)
  : strategicMergePatch * option error :=
  let style := yamlv3.NodeStyle node in
  if (style =? 0)%Z || (style =? yamlv3.DoubleQuotedStyle)%Z
     || (style =? yamlv3.SingleQuotedStyle)%Z
  then (mkStrategicMergePatch (yamlv3.Value node) (smPatch p), None)
  else (mkStrategicMergePatch (smPath p) (yamlv3.Value node), None).

(** The [unmarshal] callback handed to a hook: decoding the current node
    into a [patchPath] or into a [string]. Each attempt returns the target
    as the decoder leaves it, and the error if there is one. *)
Record unmarshalFunc : Type := mkUnmarshalFunc {
  intoPatchPath : patchPath -> patchPath * option error;
  intoString : string -> string * option error;
}.

(** [patchWrapper.UnmarshalYAML]. The deprecation warning printed for
    the bare-string form has no effect on the result. *)
Definition patchWrapper_UnmarshalYAML
    (p : patchWrapper) (unmarshal : unmarshalFunc)
  : patchWrapper * option error :=
  let pp := mkPatchPath "" "" in
  match intoPatchPath unmarshal pp with
  | (pp, Some _) =>
      let oldPathString := "" in
      match intoString unmarshal oldPathString with
      | (_, Some err) => (p, Some err)
      | (oldPathString, None) =>
          let pp := mkPatchPath oldPathString (Patch pp) in
          (mkPatchWrapper (Some pp), None)
      end
  | (pp, None) => (mkPatchWrapper (Some pp), None)
  end.

(** A kustomization file as the YAML parser sees it, before the hooks run:
    the entries of [patchesStrategicMerge] are scalar nodes, null scalars
    among them; the entries of [patches] are the nodes for which the hook
    runs, seen through their [unmarshal] callback. *)
Record yamlDocument : Type := mkYamlDocument {
  docBases : list string;
  docResources : list string;
  docPatches : list unmarshalFunc;
  docPatchesStrategicMerge : list yamlv3.Node;
  docCRDs : list string;
  docPatchesJSON6902 : list patchJSON6902;
  docConfigMapGenerator : list configMapGenerator;
  docSecretGenerator : list secretGenerator;
}.

(** Each [patchesStrategicMerge] node that the decoder hands to the hook is
    decoded into a zero value. *)
Definition decodeStrategicMergePatch (node : yamlv3.Node) : strategicMergePatch :=
  fst (strategicMergePatch_UnmarshalYAML (mkStrategicMergePatch "" "") node).

(** Each [patches] node is decoded into a zero value, and an error of a
    hook fails the whole decoding. The error kept here is the one of the
    first failing entry; the decoder itself goes on and reports the type
    errors of all the entries together, so that only the fact of the
    failure, not the error value, is to be read from this definition. *)
Fixpoint decodePatches (nodes : list unmarshalFunc) : result (list patchWrapper) :=
  match nodes with
  | [] => Ok []
  | u :: rest =>
      match patchWrapper_UnmarshalYAML (mkPatchWrapper None) u with
      | (_, Some err) => Fail err
      | (p, None) =>
          match decodePatches rest with
          | Ok ps => Ok (p :: ps)
          | Fail err => Fail err
          end
      end
  end.

Definition decodeDocument (doc : yamlDocument) : result kustomization :=
  match decodePatches (docPatches doc) with
  | Fail err => Fail err
  | Ok patches =>
      Ok (mkKustomization
            (docBases doc) (docResources doc) patches
            (map decodeStrategicMergePatch
               (List.filter yamlv3.handedToHook (docPatchesStrategicMerge doc)))
            (docCRDs doc) (docPatchesJSON6902 doc)
            (docConfigMapGenerator doc) (docSecretGenerator doc))
  end.

(** The two shapes of a [patches] node that decode: a bare string, and a
    mapping with the keys [path] and [patch] (an absent key leaves its
    field as it is). *)
Definition scalarPatchNode (s : string) : unmarshalFunc :=
  mkUnmarshalFunc
    (fun pp => (pp, Some (ErrorString "cannot unmarshal !!str into deploy.patchPath")))
    (fun _ => (s, None)).

Definition mappingPatchNode (path patch : option string) : unmarshalFunc :=
  mkUnmarshalFunc
    (fun pp => (mkPatchPath (default (Path pp) path) (default (Patch pp) patch), None))
    (fun old => (old, Some (ErrorString "cannot unmarshal !!map into string"))).

(** ** The file system *)

Module os.

(** [os.FileMode] is a [uint32]; [ModeDir] is its top bit. *)
Definition FileMode : Type := Z.
Definition ModeDir : FileMode := Z.shiftl 1 31.
Definition IsDir (m : FileMode) : bool := negb (Z.land m ModeDir =? 0)%Z.

End os.

(** Modelled from the spec: [util.AbsolutePaths], which is not in this file.
    A path is resolved against the directory the way the path probe does it:
    "if path is absolute, resolve as-is; otherwise join with workingDir". *)
Definition AbsolutePaths (workspace : string) (paths : list string) : list string :=
  map (fun path =>
         if negb (filepath.IsAbs path) then filepath.Join workspace path
         else path)
      paths.

(** ** The dependency resolver *)

(** What a call of the resolver comes to: [None] when it does not return
    (the recursion does not end within the fuel, or a [nil] pointer is
    dereferenced), otherwise the returned pair. *)
Definition outcome (A : Type) : Type := option (result A).

Section Resolver.

(** [os.Stat path]: the mode of [path] when the call succeeds. *)
Variable Stat : string -> option os.FileMode.
(** [ioutil.ReadFile path]. *)
Variable ReadFile : string -> result string.
(** The YAML parser on the bytes of a file. *)
Variable ParseYAML : string -> result yamlDocument.

(** [yaml.Unmarshal(buf, &content)] on a zero [kustomization]: parse,
    then run the hooks on the entries that have one. *)
Definition Unmarshal (buf : string) : result kustomization :=
  match ParseYAML buf with
  | Fail err => Fail err
  | Ok doc => decodeDocument doc
  end.

(** A configuration file that is there and cannot be used: it cannot be
    read, or its content does not unmarshal. *)
Definition unusableConfig (path : string) (err : error) : Prop :=
  ReadFile path = Fail err
  \/ exists buf, ReadFile path = Ok buf /\ Unmarshal buf = Fail err.

Definition pathExistsLocally (filename workingDir : string)
  : bool * os.FileMode :=
  let path :=
    if negb (filepath.IsAbs filename) then filepath.Join workingDir filename
    else filename in
  match Stat path with
  | Some mode => (true, mode)
  | None => (false, 0%Z)
  end.

(** The loop of [findKustomizationConfig] over the accepted names. *)
Fixpoint findConfigAmong (candidates : list string) (dir : string)
  : result string :=
  match candidates with
  | [] =>
      Fail (ErrorString
              ("no Kustomization configuration found in directory: " +:+ dir))
  | candidate :: rest =>
      if fst (pathExistsLocally candidate dir)
      then Ok (filepath.Join dir candidate)
      else findConfigAmong rest dir
  end.

Definition findKustomizationConfig (dir : string) : result string :=
  findConfigAmong kustomizeFilePaths dir.

(** The loop over [candidates]; [recurse] is the resolver itself. *)
Fixpoint candidatesLoop (recurse : string -> outcome (list string))
    (dir : string) (candidates deps : list string) : outcome (list string) :=
  match candidates with
  | [] => Some (Ok deps)
  | candidate :: rest =>
      let (local, mode) := pathExistsLocally candidate dir in
      if negb local then candidatesLoop recurse dir rest deps
      else if os.IsDir mode then
        match recurse (filepath.Join dir candidate) with
        | None => None
        | Some (Fail err) => Some (Fail err)
        | Some (Ok candidateDeps) =>
            candidatesLoop recurse dir rest (deps ++ candidateDeps)
        end
      else candidatesLoop recurse dir rest (deps ++ [filepath.Join dir candidate])
  end.

(** The loop over [content.PatchesStrategicMerge]. *)
Definition strategicMergeLoop (dir : string)
    (patches : list strategicMergePatch) (deps : list string) : list string :=
  fold_left
    (fun deps patch =>
       if negb (smPath patch =? "")
       then deps ++ [filepath.Join dir (smPath patch)]
       else deps)
    patches deps.

(** The loop over [content.Patches]; reading [patch.Path] through a
    [nil] pointer does not return. *)
Fixpoint patchesLoop (dir : string) (patches : list patchWrapper)
    (deps : list string) : option (list string) :=
  match patches with
  | [] => Some deps
  | patch :: rest =>
      match patchPath_ptr patch with
      | None => None
      | Some pp =>
          if negb (Path pp =? "")
          then patchesLoop dir rest (deps ++ [filepath.Join dir (Path pp)])
          else patchesLoop dir rest deps
      end
  end.

(** The loop over [content.PatchesJSON6902]. *)
Definition jsonPatchesLoop (dir : string)
    (patches : list patchJSON6902) (deps : list string) : list string :=
  fold_left
    (fun deps jsonPatch =>
       if negb (jsonPath jsonPatch =? "")
       then deps ++ [filepath.Join dir (jsonPath jsonPatch)]
       else deps)
    patches deps.

(** The body of the loops over the generators. *)
Definition generatorStep (dir : string) (deps : list string)
    (g : generator) : list string :=
  let deps := deps ++ AbsolutePaths dir (Files g) in
  let envs := Envs g in
  let envs := if negb (Env g =? "") then envs ++ [Env g] else envs in
  deps ++ AbsolutePaths dir envs.

Definition generatorsLoop (dir : string) (generators : list generator)
    (deps : list string) : list string :=
  fold_left (generatorStep dir) generators deps.

(** What follows the loop over the candidates. *)
Definition restOfKustomization (dir : string) (content : kustomization)
    (deps : list string) : outcome (list string) :=
  let deps := strategicMergeLoop dir (PatchesStrategicMerge content) deps in
  let deps := deps ++ AbsolutePaths dir (CRDs content) in
  match patchesLoop dir (Patches content) deps with
  | None => None
  | Some deps =>
      let deps := jsonPatchesLoop dir (PatchesJSON6902 content) deps in
      let deps := generatorsLoop dir (ConfigMapGenerator content) deps in
      let deps := generatorsLoop dir (SecretGenerator content) deps in
      Some (Ok deps)
  end.

Fixpoint dependenciesForKustomization (fuel : nat) (dir : string)
  : outcome (list string) :=
  match fuel with
  | O => None
  | S fuel =>
      let deps : list string := [] in
      match findKustomizationConfig dir with
      | Fail _ => Some (Ok deps)
      | Ok path =>
          match ReadFile path with
          | Fail err => Some (Fail err)
          | Ok buf =>
              match Unmarshal buf with
              | Fail err => Some (Fail err)
              | Ok content =>
                  let deps := deps ++ [path] in
                  let candidates := Bases content ++ Resources content in
                  match candidatesLoop (dependenciesForKustomization fuel)
                          dir candidates deps with
                  | None => None
                  | Some (Fail err) => Some (Fail err)
                  | Some (Ok deps) => restOfKustomization dir content deps
                  end
              end
          end
      end
  end.

End Resolver.

(** ** [Dependencies] *)

(** Modelled from the spec: the string set of [Dependencies]
    ([newStringSet], [insert], [toList]), which is not in this file. The
    spec has [Dependencies] return a "sorted deduplicated list of paths":
    the set holds each path once, and [toList] lists it in increasing byte
    order. *)
Module stringSet.

Definition le (a b : string) : Prop := Is_true (String.leb a b).

Definition new : gset string := ∅.

Definition insert (s : gset string) (strs : list string) : gset string :=
  fold_left (fun s str => {[ str ]} ∪ s) strs s.

Definition toList (s : gset string) : list string :=
  merge_sort le (elements s).

End stringSet.

Section Dependencies.

Variable Stat : string -> option os.FileMode.
Variable ReadFile : string -> result string.
Variable ParseYAML : string -> result yamlDocument.

(** Each path of [paths] resolves to the set at the same place of
    [results]. *)
Definition resolvedTo (fuel : nat) (paths : list string)
    (results : list (list string)) : Prop :=
  Forall2
    (fun path deps =>
       dependenciesForKustomization Stat ReadFile ParseYAML fuel path
       = Some (Ok deps))
    paths results.

(** The loop of [Dependencies] over [k.KustomizePaths]. *)
Fixpoint dependenciesLoop (fuel : nat) (paths : list string)
    (deps : gset string) : outcome (gset string) :=
  match paths with
  | [] => Some (Ok deps)
  | kustomizePath :: rest =>
      match dependenciesForKustomization Stat ReadFile ParseYAML
              fuel kustomizePath with
      | None => None
      | Some (Fail err) => Some (Fail err)
      | Some (Ok depsForKustomization) =>
          dependenciesLoop fuel rest
            (stringSet.insert deps depsForKustomization)
      end
  end.

(** [Dependencies] lists all the files that describe what needs to be
    deployed. *)
Definition Dependencies (fuel : nat) (KustomizePaths : list string)
  : outcome (list string) :=
  match dependenciesLoop fuel KustomizePaths stringSet.new with
  | None => None
  | Some (Fail err) => Some (Fail err)
  | Some (Ok deps) => Some (Ok (stringSet.toList deps))
  end.

End Dependencies.

(** ** Helper predicates *)

Definition IsKustomizationBase (path : string) : bool :=
  filepath.Dir path =? basePath.

(** The loop of [IsKustomizationPath] over the accepted names. *)
Fixpoint nameAmong (filename : string) (candidates : list string) : bool :=
  match candidates with
  | [] => false
  | candidate :: rest =>
      if filename =? candidate then true else nameAmong filename rest
  end.

Definition IsKustomizationPath (path : string) : bool :=
  let filename := filepath.Base path in
  nameAmong filename kustomizeFilePaths.

(** ** The render and deploy pipeline *)

(** [deploy.ManifestList]: a list of raw YAML documents. *)
Definition ManifestList : Type := list string.

(** Modelled from the spec: the deploy [Result] ([NewDeploySuccessResult],
    [NewDeployErrorResult]), which is not in this file: "report success"
    with the collected namespaces, or "a structured failure result ...
    carrying the wrapped error". *)
Inductive Result : Type :=
| NewDeploySuccessResult (namespaces : list string)
| NewDeployErrorResult (err : error).

(** The calls the pipeline makes to its collaborators, in the order it
    makes them. *)
Inductive Event : Type :=
| DeployInProgress
| DeployFailed (err : error)
| DeployComplete
| DeployInfoEvent (err : error)
| CheckVersionCall
| VersionCall
| Fprintln
| GetDebugHelpersRegistryCall (globalConfig : string)
| RunCmdOutCall (name : string) (args : list string)
| ReplaceImagesCall (manifests : ManifestList)
| TransformCall (index : nat) (manifests : ManifestList)
| SetLabelsCall (manifests : ManifestList)
| CollectNamespacesCall (manifests : ManifestList)
| ApplyCall (manifests : ManifestList)
| DeleteCall (manifests : ManifestList).

(** A computation that logs its calls. *)
Definition Logged (A : Type) : Type := list Event * A.

Definition ret {A} (a : A) : Logged A := ([], a).

Definition bind {A B} (c : Logged A) (k : A -> Logged B) : Logged B :=
  let (log1, a) := c in
  let (log2, b) := k a in
  (log1 ++ log2, b).

Definition call {A} (ev : Event) (a : A) : Logged A := ([ev], a).

Notation "x <- c ;; k" := (bind c (fun x => k))
  (at level 100, c at next level, right associativity).
Notation "c ;;; k" := (bind c (fun _ => k))
  (at level 100, right associativity).

Definition isApply (ev : Event) : bool :=
  match ev with ApplyCall _ => true | _ => false end.

Definition isTransformStep (ev : Event) : bool :=
  match ev with
  | ReplaceImagesCall _ | TransformCall _ _ | SetLabelsCall _ => true
  | _ => false
  end.

Definition buildCommandArgs (buildArgs : list string) (kustomizePath : string)
  : list string :=
  let args : list string := [] in
  let args := args ++ ["build"] in
  let args :=
    if (0 <? length buildArgs)%nat
    then fold_left
           (fun args v =>
              let parts := strings.Split " "%char v in
              args ++ parts)
           buildArgs args
    else args in
  let args :=
    if (0 <? String.length kustomizePath)%nat then args ++ [kustomizePath]
    else args in
  args.

Section Pipeline.

(** [build.Artifact], the label set and the registries are passed
    through to the collaborators. *)
Variables Artifact Labels InsecureRegistries DebugHelpersRegistry : Type.

(** [Registries{k.insecureRegistries, debugHelpersRegistry}]. *)
Definition Registries : Type := InsecureRegistries * DebugHelpersRegistry.

(** [KustomizeDeployer]: the configuration ([KustomizePaths],
    [BuildArgs]) and the fields the pipeline passes on. *)
Record KustomizeDeployer : Type := mkKustomizeDeployer {
  KustomizePaths : list string;
  BuildArgs : list string;
  insecureRegistries : InsecureRegistries;
  labels : Labels;
  globalConfig : string;
}.

(** The collaborators. *)
Variable CheckVersion : option error.
Variable GetDebugHelpersRegistry : string -> result DebugHelpersRegistry.
Variable RunCmdOut : string -> list string -> result string.
Variable Append : ManifestList -> string -> ManifestList.
Variable ReplaceImages : ManifestList -> list Artifact -> result ManifestList.
Variable manifestTransforms :
  list (ManifestList -> list Artifact -> Registries -> result ManifestList).
Variable SetLabels : ManifestList -> Labels -> result ManifestList.
Variable CollectNamespaces : ManifestList -> list string * option error.
Variable Apply : ManifestList -> option error.
Variable Delete : ManifestList -> option error.

(** The call of the kustomize command for [path]. *)
Definition kustomizeBuildCall (k : KustomizeDeployer) (path : string) : Event :=
  RunCmdOutCall "kustomize" (buildCommandArgs (BuildArgs k) path).

(** The kustomize command, run for [path], prints [out]. *)
Definition prints (k : KustomizeDeployer) (path out : string) : Prop :=
  RunCmdOut "kustomize" (buildCommandArgs (BuildArgs k) path) = Ok out.

(** The loop of [readManifests] over [k.KustomizePaths]. *)
Fixpoint readManifestsLoop (k : KustomizeDeployer) (paths : list string)
    (manifests : ManifestList) : Logged (result ManifestList) :=
  match paths with
  | [] => ret (Ok manifests)
  | kustomizePath :: rest =>
      let args := buildCommandArgs (BuildArgs k) kustomizePath in
      r <- call (RunCmdOutCall "kustomize" args) (RunCmdOut "kustomize" args) ;;
      match r with
      | Fail err => ret (Fail (Errorf "kustomize build: " err))
      | Ok out =>
          if (String.length out =? 0)%nat
          then readManifestsLoop k rest manifests
          else readManifestsLoop k rest (Append manifests out)
      end
  end.

Definition readManifests (k : KustomizeDeployer)
  : Logged (result ManifestList) :=
  let manifests : ManifestList := [] in
  readManifestsLoop k (KustomizePaths k) manifests.

(** The loop of [renderManifests] over [manifestTransforms]; [index]
    counts the transforms already run. *)
Fixpoint transformsLoop
    (transforms :
       list (ManifestList -> list Artifact -> Registries -> result ManifestList))
    (index : nat) (manifests : ManifestList) (builds : list Artifact)
    (registries : Registries) : Logged (result ManifestList) :=
  match transforms with
  | [] => ret (Ok manifests)
  | transform :: rest =>
      r <- call (TransformCall index manifests)
             (transform manifests builds registries) ;;
      match r with
      | Fail err => ret (Fail (Errorf "unable to transform manifests: " err))
      | Ok manifests =>
          transformsLoop rest (S index) manifests builds registries
      end
  end.

Definition renderManifests (k : KustomizeDeployer) (builds : list Artifact)
  : Logged (result ManifestList) :=
  v <- call CheckVersionCall CheckVersion ;;
  match v with
  | Some _ => call VersionCall tt ;;; call Fprintln tt ;;; call Fprintln tt
  | None => ret tt
  end ;;;
  d <- call (GetDebugHelpersRegistryCall (globalConfig k))
         (GetDebugHelpersRegistry (globalConfig k)) ;;
  match d with
  | Fail err => ret (Fail (Errorf "retrieving debug helpers registry: " err))
  | Ok debugHelpersRegistry =>
      m <- readManifests k ;;
      match m with
      | Fail err => ret (Fail (Errorf "reading manifests: " err))
      | Ok manifests =>
          if (length manifests =? 0)%nat then ret (Ok [])
          else
            r <- call (ReplaceImagesCall manifests)
                   (ReplaceImages manifests builds) ;;
            match r with
            | Fail err =>
                ret (Fail (Errorf "replacing images in manifests: " err))
            | Ok manifests =>
                t <- transformsLoop manifestTransforms 0 manifests builds
                       (insecureRegistries k, debugHelpersRegistry) ;;
                match t with
                | Fail err => ret (Fail err)
                | Ok manifests =>
                    call (SetLabelsCall manifests)
                      (SetLabels manifests (labels k))
                end
            end
      end
  end.

(** [Deploy] runs [kubectl apply] on the manifest generated by
    kustomize. *)
Definition Deploy (k : KustomizeDeployer) (builds : list Artifact)
  : Logged Result :=
  call DeployInProgress tt ;;;
  m <- renderManifests k builds ;;
  match m with
  | Fail err =>
      call (DeployFailed err) tt ;;; ret (NewDeployErrorResult err)
  | Ok manifests =>
      if (length manifests =? 0)%nat
      then call DeployComplete tt ;;; ret (NewDeploySuccessResult [])
      else
        c <- call (CollectNamespacesCall manifests)
               (CollectNamespaces manifests) ;;
        let (namespaces, err) := c in
        match err with
        | Some err =>
            call (DeployInfoEvent
                    (Errorf ("could not fetch deployed resource namespace. "
                             +:+ "This might cause port-forward and deploy health-check to fail: ")
                       err)) tt
        | None => ret tt
        end ;;;
        a <- call (ApplyCall manifests) (Apply manifests) ;;
        match a with
        | Some err =>
            call (DeployFailed err) tt ;;; ret (NewDeployErrorResult err)
        | None =>
            call DeployComplete tt ;;; ret (NewDeploySuccessResult namespaces)
        end
  end.

(** [Cleanup] deletes what was deployed by calling [Deploy]. *)
Definition Cleanup (k : KustomizeDeployer) : Logged (option error) :=
  m <- readManifests k ;;
  match m with
  | Fail err => ret (Some (Errorf "reading manifests: " err))
  | Ok manifests =>
      d <- call (DeleteCall manifests) (Delete manifests) ;;
      match d with
      | Some err => ret (Some (Errorf "delete: " err))
      | None => ret None
      end
  end.

End Pipeline.

Arguments KustomizePaths {Labels InsecureRegistries} k.
Arguments BuildArgs {Labels InsecureRegistries} k.
Arguments insecureRegistries {Labels InsecureRegistries} k.
Arguments labels {Labels InsecureRegistries} k.
Arguments globalConfig {Labels InsecureRegistries} k.
Arguments kustomizeBuildCall {Labels InsecureRegistries} k.
Arguments prints {Labels InsecureRegistries} RunCmdOut k.
Arguments readManifestsLoop {Labels InsecureRegistries} RunCmdOut Append k.
Arguments readManifests {Labels InsecureRegistries} RunCmdOut Append k.
Arguments transformsLoop {Artifact InsecureRegistries DebugHelpersRegistry}.
Arguments renderManifests {Artifact Labels InsecureRegistries DebugHelpersRegistry}.
Arguments Deploy {Artifact Labels InsecureRegistries DebugHelpersRegistry}.
Arguments Cleanup {Labels InsecureRegistries}.


(** ** The candidate list, in the words of the specification *)

Section CandidateUnion.

Variable Stat : string -> option os.FileMode.

(** What one candidate brings: nothing when it does not exist locally,
    what the resolver returns for it when it is a local directory, its
    path joined with the current directory when it is a local file. *)
Definition candidateDeps (recurse : string -> outcome (list string))
    (dir candidate : string) : outcome (list string) :=
  match pathExistsLocally Stat candidate dir with
  | (false, _) => Some (Ok [])
  | (true, mode) =>
      if os.IsDir mode then recurse (filepath.Join dir candidate)
      else Some (Ok [filepath.Join dir candidate])
  end.

(** The union over the candidates in order; the first candidate whose
    resolution does not return a set ends it. *)
Fixpoint unionOfCandidates (recurse : string -> outcome (list string))
    (dir : string) (candidates : list string) : outcome (list string) :=
  match candidates with
  | [] => Some (Ok [])
  | candidate :: rest =>
      match candidateDeps recurse dir candidate with
      | Some (Ok found) =>
          match unionOfCandidates recurse dir rest with
          | Some (Ok others) => Some (Ok (found ++ others))
          | other => other
          end
      | other => other
      end
  end.

End CandidateUnion.

(** The directory [dir] has the configuration [content], read from [path],
    and its candidates resolve to [found] with the fuel [fuel]. *)
Definition parsedAndResolved
    (Stat : string -> option os.FileMode)
    (ReadFile : string -> result string)
    (ParseYAML : string -> result yamlDocument)
    (fuel : nat) (dir path buf : string)
    (content : kustomization) (found : list string) : Prop :=
  findKustomizationConfig Stat dir = Ok path
  /\ ReadFile path = Ok buf
  /\ Unmarshal ParseYAML buf = Ok content
  /\ unionOfCandidates Stat
       (dependenciesForKustomization Stat ReadFile ParseYAML fuel) dir
       (Bases content ++ Resources content)
     = Some (Ok found).

(** The effective environment-file list of a generator: [envs], with [env]
    appended once when it is not empty. *)
Definition effectiveEnvs (g : generator) : list string :=
  if Env g =? "" then Envs g else Envs g ++ [Env g].

(** What one generator brings: the resolved [files], then the resolved
    effective environment files. *)
Definition generatorDeps (dir : string) (g : generator) : list string :=
  AbsolutePaths dir (Files g) ++ AbsolutePaths dir (effectiveEnvs g).



(** What one decoded [patchesStrategicMerge] entry, one [patches] entry and
    one [patchesJson6902] entry bring: the path joined with the directory
    when the path is not empty. *)
Definition strategicMergeDeps (dir : string) (p : strategicMergePatch)
  : list string :=
  if smPath p =? "" then [] else [filepath.Join dir (smPath p)].

Definition patchDeps (dir : string) (p : patchWrapper) : list string :=
  match patchPath_ptr p with
  | Some pp => if Path pp =? "" then [] else [filepath.Join dir (Path pp)]
  | None => []
  end.

Definition jsonPatchDeps (dir : string) (p : patchJSON6902) : list string :=
  if jsonPath p =? "" then [] else [filepath.Join dir (jsonPath p)].

(** What follows the candidates appends, in this order: the strategic merge
    patches, the CRDs, the patches, the JSON patches, the config map
    generators and the secret generators. *)
Definition restDeps (dir : string) (content : kustomization) : list string :=
  flat_map (strategicMergeDeps dir) (PatchesStrategicMerge content)
  ++ AbsolutePaths dir (CRDs content)
  ++ flat_map (patchDeps dir) (Patches content)
  ++ flat_map (jsonPatchDeps dir) (PatchesJSON6902 content)
  ++ flat_map (generatorDeps dir) (ConfigMapGenerator content)
  ++ flat_map (generatorDeps dir) (SecretGenerator content).

(** The elements [Clean] keeps are not empty and hold no separator at
    their start. *)
Definition keptElement (e : string) : Prop :=
  e <> "" /\ filepath.IsAbs e = false.


(** ** A sample tree

    [overlay] has a kustomization that names the local base [../base], a
    local file, an absolute file, a remote resource, a directory without a
    kustomization ([plain]) and patches of every form; [base] has its own.
    [broken] holds a kustomization that does not parse, and [parent] names
    [broken] as a base. *)
Module Sample.

Definition file : os.FileMode := 420%Z.
Definition directory : os.FileMode := (os.ModeDir + 493)%Z.

Definition tree : list (string * os.FileMode) :=
  [ ("overlay", directory);
    ("overlay/kustomization.yaml", file);
    ("overlay/deployment.yaml", file);
    ("overlay/patch.yaml", file);
    ("overlay/plain", directory);
    ("base", directory);
    ("base/Kustomization", file);
    ("base/service.yaml", file);
    ("/abs/file.yaml", file);
    ("broken", directory);
    ("broken/kustomization.yml", file);
    ("parent", directory);
    ("parent/kustomization.yaml", file);
    ("locked", directory);
    ("locked/kustomization.yaml", file) ].

Fixpoint lookup {A} (key : string) (l : list (string * A)) : option A :=
  match l with
  | [] => None
  | (k, v) :: rest => if key =? k then Some v else lookup key rest
  end.

Definition Stat (path : string) : option os.FileMode := lookup path tree.

(** The content of a file is written as the name of the file. *)
Definition ReadFile (path : string) : result string :=
  if path =? "locked/kustomization.yaml"
  then Fail (ErrorString "open locked/kustomization.yaml: permission denied")
  else match Stat path with
       | Some _ => Ok path
       | None => Fail (ErrorString "no such file or directory")
       end.

Definition quotedNode : yamlv3.Node :=
  yamlv3.mkNode yamlv3.DoubleQuotedStyle yamlv3.strTag "spec: {...}".
Definition plainNode : yamlv3.Node :=
  yamlv3.mkNode 0%Z yamlv3.strTag "patch.yaml".
Definition literalNode : yamlv3.Node :=
  yamlv3.mkNode yamlv3.LiteralStyle yamlv3.strTag "spec: {...}".
(** The entry [- ~]: a plain scalar that the parser tags as null. *)
Definition nullNode : yamlv3.Node := yamlv3.mkNode 0%Z yamlv3.nullTag "~".

Definition overlayDoc : yamlDocument :=
  mkYamlDocument
    ["../base"]
    ["deployment.yaml"; "/abs/file.yaml"; "github.com/org/repo"; "plain"]
    [mappingPatchNode (Some "p1.yaml") None; scalarPatchNode "old.yaml";
     mappingPatchNode (Some "both.yaml") (Some "kind: Deployment");
     mappingPatchNode None (Some "kind: Service")]
    [plainNode; nullNode; quotedNode; literalNode]
    ["crd.yaml"; "/abs/crd.yaml"]
    [mkPatchJSON6902 "json.yaml"]
    [mkGenerator ["cfg.properties"] "one.env" ["a.env"; "b.env"]]
    [mkGenerator ["/abs/secret.txt"] "" ["s.env"]].

Definition baseDoc : yamlDocument :=
  mkYamlDocument [] ["service.yaml"; "deployment.yaml"] [] [] [] [] [] [].

Definition parentDoc : yamlDocument :=
  mkYamlDocument ["../overlay"; "../broken"; "../base"] [] [] [] [] [] [] [].

Definition ParseYAML (buf : string) : result yamlDocument :=
  if buf =? "overlay/kustomization.yaml" then Ok overlayDoc
  else if buf =? "base/Kustomization" then Ok baseDoc
  else if buf =? "parent/kustomization.yaml" then Ok parentDoc
  else Fail (ErrorString "yaml: line 1: did not find expected key").

Definition resolve : nat -> string -> outcome (list string) :=
  dependenciesForKustomization Stat ReadFile ParseYAML.

(** The set of [base], and the set of [overlay]. *)
Definition baseDeps : list string :=
  ["base/Kustomization"; "base/service.yaml"].


Definition overlayDeps : list string :=
  ["overlay/kustomization.yaml"; "base/Kustomization"; "base/service.yaml";
   "overlay/deployment.yaml"; "overlay/abs/file.yaml"; "overlay/patch.yaml";
   "overlay/spec: {...}"; "overlay/crd.yaml"; "/abs/crd.yaml";
   "overlay/p1.yaml"; "overlay/old.yaml"; "overlay/both.yaml";
   "overlay/json.yaml"; "overlay/cfg.properties"; "overlay/a.env";
   "overlay/b.env"; "overlay/one.env"; "/abs/secret.txt"; "overlay/s.env"].

End Sample.

(** ** Sample collaborators

    The kustomize command prints nothing for the path [empty], fails for
    [broken] and prints one document for any other path; appending adds the
    output as one document; namespace collection fails. *)
Module SamplePipeline.

Definition RunCmdOut (name : string) (args : list string) : result string :=
  match last args with
  | Some "empty" => Ok ""
  | Some "broken" => Fail (ErrorString "exit status 1")
  | Some path => Ok ("kind: Deployment # " +:+ path)
  | None => Fail (ErrorString "no arguments")
  end.

Definition Append (manifests : ManifestList) (out : string) : ManifestList :=
  manifests ++ [out].

Definition GetDebugHelpersRegistry (globalConfig : string) : result string :=
  Ok "gcr.io/debug-helpers".

Definition ReplaceImages (manifests : ManifestList) (builds : list unit)
  : result ManifestList := Ok manifests.

Definition transform (manifests : ManifestList) (builds : list unit)
    (registries : Registries unit string) : result ManifestList :=
  Ok manifests.

Definition SetLabels (manifests : ManifestList) (l : unit)
  : result ManifestList := Ok manifests.

Definition CollectNamespaces (manifests : ManifestList)
  : list string * option error :=
  ([], Some (ErrorString "failed to parse manifest")).

Definition Apply (manifests : ManifestList) : option error := None.

Definition deployer (paths : list string) : KustomizeDeployer unit unit :=
  mkKustomizeDeployer unit unit paths ["--load_restrictor none"] tt tt "".

Definition read (paths : list string) : Logged (result ManifestList) :=
  readManifests RunCmdOut Append (deployer paths).

Definition render (paths : list string) : Logged (result ManifestList) :=
  renderManifests None GetDebugHelpersRegistry RunCmdOut Append ReplaceImages
    [transform] SetLabels (deployer paths) [].

Definition deploy (paths : list string) : Logged Result :=
  Deploy None GetDebugHelpersRegistry RunCmdOut Append ReplaceImages
    [transform] SetLabels CollectNamespaces Apply (deployer paths) [].

End SamplePipeline.

(** ** The walk through the directories *)

(** A path element that [Clean] keeps as it is: not empty, not [.] or
    [..], and without a separator. *)
Definition simpleName (name : string) : Prop :=
  name <> "" /\ name <> "." /\ name <> ".."
  /\ filepath.hasSeparator name = false.

(** [candidate] is among the bases and resources of the configuration of
    [dir], and is a local directory: the resolver recurses into it. *)
Definition directoryCandidate
    (Stat : string -> option os.FileMode)
    (ReadFile : string -> result string)
    (ParseYAML : string -> result yamlDocument)
    (dir candidate : string) : Prop :=
  exists path buf content mode,
    findKustomizationConfig Stat dir = Ok path
    /\ ReadFile path = Ok buf
    /\ Unmarshal ParseYAML buf = Ok content
    /\ In candidate (Bases content ++ Resources content)
    /\ pathExistsLocally Stat candidate dir = (true, mode)
    /\ os.IsDir mode = true.

(** ** The transforms as one function *)

(** The manifests after the transforms, each applied to the result of the
    one before; the first failure ends the chain. *)
Fixpoint applyTransforms {Artifact Registries : Type}
    (transforms :
       list (ManifestList -> list Artifact -> Registries -> result ManifestList))
    (manifests : ManifestList) (builds : list Artifact)
    (registries : Registries) : result ManifestList :=
  match transforms with
  | [] => Ok manifests
  | transform :: rest =>
      match transform manifests builds registries with
      | Fail err => Fail (Errorf "unable to transform manifests: " err)
      | Ok manifests => applyTransforms rest manifests builds registries
      end
  end.

(** The events that end a deployment. *)
Definition isTerminal (ev : Event) : bool :=
  match ev with
  | DeployFailed _ | DeployComplete => true
  | _ => false
  end.

Definition isRunCmdOut (ev : Event) : bool :=
  match ev with RunCmdOutCall _ _ => true | _ => false end.

Definition isDelete (ev : Event) : bool :=
  match ev with DeleteCall _ => true | _ => false end.

(** ** [Render] *)

(** What [Render] does: the calls of the pipeline, and the writing of the
    rendered manifests. *)
Inductive RenderEvent : Type :=
| PipelineEvent (ev : Event)
| OutputRenderedManifestsCall (renderedManifests filepath : string).

Section RenderOperation.

Variables Artifact Labels InsecureRegistries DebugHelpersRegistry : Type.
Variable CheckVersion : option error.
Variable GetDebugHelpersRegistry : string -> result DebugHelpersRegistry.
Variable RunCmdOut : string -> list string -> result string.
Variable Append : ManifestList -> string -> ManifestList.
Variable ReplaceImages : ManifestList -> list Artifact -> result ManifestList.
Variable manifestTransforms :
  list (ManifestList -> list Artifact ->
        Registries InsecureRegistries DebugHelpersRegistry ->
        result ManifestList).
Variable SetLabels : ManifestList -> Labels -> result ManifestList.
(** [manifests.String()] and [outputRenderedManifests], which are not in
    this file. *)
Variable ManifestsString : ManifestList -> string.
Variable outputRenderedManifests : string -> string -> option error.

(** [Render]; the argument [offline] is not used. *)
Definition Render (k : KustomizeDeployer Labels InsecureRegistries)
    (builds : list Artifact) (offline : bool) (filepath : string)
  : list RenderEvent * option error :=
  let (log, m) :=
    renderManifests CheckVersion GetDebugHelpersRegistry RunCmdOut Append
      ReplaceImages manifestTransforms SetLabels k builds in
  match m with
  | Fail err => (map PipelineEvent log, Some err)
  | Ok manifests =>
      (map PipelineEvent log
         ++ [OutputRenderedManifestsCall (ManifestsString manifests) filepath],
       outputRenderedManifests (ManifestsString manifests) filepath)
  end.

End RenderOperation.

Arguments Render {Artifact Labels InsecureRegistries DebugHelpersRegistry}.

(** ** A tree with cycles

    [loop] names itself as a resource; [a] and [b] name each other as
    bases. *)
Module SampleCycle.

Definition tree : list (string * os.FileMode) :=
  [ ("loop", Sample.directory);
    ("loop/kustomization.yaml", Sample.file);
    ("a", Sample.directory);
    ("a/kustomization.yaml", Sample.file);
    ("b", Sample.directory);
    ("b/kustomization.yaml", Sample.file) ].

Definition Stat (path : string) : option os.FileMode := Sample.lookup path tree.

Definition ReadFile (path : string) : result string :=
  match Stat path with
  | Some _ => Ok path
  | None => Fail (ErrorString "no such file or directory")
  end.

Definition ParseYAML (buf : string) : result yamlDocument :=
  if buf =? "loop/kustomization.yaml"
  then Ok (mkYamlDocument [] ["."] [] [] [] [] [] [])
  else if buf =? "a/kustomization.yaml"
  then Ok (mkYamlDocument ["../b"] [] [] [] [] [] [] [])
  else if buf =? "b/kustomization.yaml"
  then Ok (mkYamlDocument ["../a"] [] [] [] [] [] [] [])
  else Fail (ErrorString "yaml: line 1: did not find expected key").

Definition resolve : nat -> string -> outcome (list string) :=
  dependenciesForKustomization Stat ReadFile ParseYAML.

End SampleCycle.

(** The directories the resolver visits from [parent] in the sample tree,
    and how deep the walk can still go from each. *)
Definition sampleVisited (dir : string) : Prop :=
  In dir ["parent"; "overlay"; "base"; "broken"; "overlay/plain"].

Definition sampleRank (dir : string) : nat :=
  if dir =? "parent" then 2 else if dir =? "overlay" then 1 else 0.

(** How many times the byte [c] occurs in [s]. *)
Fixpoint occurrences (c : ascii) (s : string) : nat :=
  match s with
  | EmptyString => 0
  | String x s' => (if Ascii.eqb x c then 1 else 0) + occurrences c s'
  end.

(** A [patches] node that is neither a mapping nor a string (a sequence):
    both decodings fail. *)
Definition sequencePatchNode : unmarshalFunc :=
  mkUnmarshalFunc
    (fun pp => (pp, Some (ErrorString "cannot unmarshal !!seq into deploy.patchPath")))
    (fun old => (old, Some (ErrorString "cannot unmarshal !!seq into string"))).

(** The sample tree, with a kustomization in [overlay] whose second
    [patches] entry is a sequence. *)
Module SampleBadPatch.

Definition overlayDoc : yamlDocument :=
  mkYamlDocument ["../base"] []
    [scalarPatchNode "old.yaml"; sequencePatchNode;
     mappingPatchNode (Some "p1.yaml") None]
    [] [] [] [] [].

Definition ParseYAML (buf : string) : result yamlDocument :=
  if buf =? "overlay/kustomization.yaml" then Ok overlayDoc
  else Sample.ParseYAML buf.

Definition resolve : nat -> string -> outcome (list string) :=
  dependenciesForKustomization Sample.Stat Sample.ReadFile ParseYAML.

End SampleBadPatch.

(** The calls that rendering can make. *)
Definition isRenderCall (ev : Event) : bool :=
  match ev with
  | CheckVersionCall | VersionCall | Fprintln
  | GetDebugHelpersRegistryCall _ | RunCmdOutCall _ _
  | ReplaceImagesCall _ | TransformCall _ _ | SetLabelsCall _ => true
  | _ => false
  end.

(** What rendering logs before it reads the manifests: the version check,
    with the version and the error printed when the check fails, and the
    lookup of the debug helpers registry. *)
Definition renderPrologue (CheckVersion : option error) (globalConfig : string)
  : list Event :=
  CheckVersionCall
    :: match CheckVersion with
       | Some _ => [VersionCall; Fprintln; Fprintln]
       | None => []
       end
    ++ [GetDebugHelpersRegistryCall globalConfig].

(** The calls of the transforms on the manifests they receive, numbered
    from [index], up to the first that fails. *)
Fixpoint transformCalls {Artifact Registries : Type}
    (transforms :
       list (ManifestList -> list Artifact -> Registries -> result ManifestList))
    (index : nat) (manifests : ManifestList) (builds : list Artifact)
    (registries : Registries) : list Event :=
  match transforms with
  | [] => []
  | transform :: rest =>
      TransformCall index manifests
        :: match transform manifests builds registries with
           | Fail _ => []
           | Ok manifests =>
               transformCalls rest (S index) manifests builds registries
           end
  end.

(** Collaborators that fail: the lookup of the debug helpers registry,
    and a transform. *)
Module SampleFailures.

Definition GetDebugHelpersRegistry (globalConfig : string) : result string :=
  Fail (ErrorString "open config: permission denied").

Definition failingTransform (manifests : ManifestList) (builds : list unit)
    (registries : Registries unit string) : result ManifestList :=
  Fail (ErrorString "unknown kind").

Definition render (paths : list string) : Logged (result ManifestList) :=
  renderManifests None GetDebugHelpersRegistry SamplePipeline.RunCmdOut
    SamplePipeline.Append SamplePipeline.ReplaceImages
    [SamplePipeline.transform] SamplePipeline.SetLabels
    (SamplePipeline.deployer paths) [].

End SampleFailures.

(** A configuration whose CRDs and generator files are all relative
    paths. *)
Definition relativePath (path : string) : Prop := filepath.IsAbs path = false.

Definition relativeEntries (content : kustomization) : Prop :=
  Forall relativePath (CRDs content)
  /\ Forall (fun g =>
               Forall relativePath (Files g)
               /\ Forall relativePath (Envs g)
               /\ relativePath (Env g))
       (ConfigMapGenerator content ++ SecretGenerator content).

(** ** A tree with absolute bases and resources

    [overlay] names the absolute directory [/shared] as a base and the
    absolute file [/abs/file.yaml] as a resource; both exist. The directory
    [overlay/shared] has a kustomization of its own. The CRDs and the
    generator files are relative. *)
Module SampleAbsolute.

Definition tree : list (string * os.FileMode) :=
  [ ("overlay", Sample.directory);
    ("overlay/kustomization.yaml", Sample.file);
    ("overlay/deployment.yaml", Sample.file);
    ("overlay/shared", Sample.directory);
    ("overlay/shared/kustomization.yaml", Sample.file);
    ("overlay/shared/service.yaml", Sample.file);
    ("/shared", Sample.directory);
    ("/abs/file.yaml", Sample.file) ].

Definition Stat (path : string) : option os.FileMode := Sample.lookup path tree.

Definition ReadFile (path : string) : result string :=
  match Stat path with
  | Some _ => Ok path
  | None => Fail (ErrorString "no such file or directory")
  end.

Definition overlayDoc : yamlDocument :=
  mkYamlDocument
    ["/shared"] ["/abs/file.yaml"; "deployment.yaml"] [] []
    ["crd.yaml"] []
    [mkGenerator ["cfg.properties"] "" []] [].

Definition sharedDoc : yamlDocument :=
  mkYamlDocument [] ["service.yaml"] [] [] [] [] [] [].

Definition ParseYAML (buf : string) : result yamlDocument :=
  if buf =? "overlay/kustomization.yaml" then Ok overlayDoc
  else if buf =? "overlay/shared/kustomization.yaml" then Ok sharedDoc
  else Fail (ErrorString "yaml: line 1: did not find expected key").

Definition resolve : nat -> string -> outcome (list string) :=
  dependenciesForKustomization Stat ReadFile ParseYAML.


Definition overlayDeps : list string :=
  ["overlay/kustomization.yaml"; "overlay/shared/kustomization.yaml";
   "overlay/shared/service.yaml"; "overlay/abs/file.yaml";
   "overlay/deployment.yaml"; "overlay/crd.yaml"; "overlay/cfg.properties"].

End SampleAbsolute.

(** ** A kustomization at the root and in the empty directory

    The directories [/] and the empty string each hold a kustomization that
    names the absolute file [/abs/file.yaml] as a resource. *)
Module SampleRoot.

Definition tree : list (string * os.FileMode) :=
  [ ("/kustomization.yaml", Sample.file);
    ("kustomization.yaml", Sample.file);
    ("/abs/file.yaml", Sample.file) ].

Definition Stat (path : string) : option os.FileMode := Sample.lookup path tree.

Definition ReadFile (path : string) : result string :=
  match Stat path with
  | Some _ => Ok path
  | None => Fail (ErrorString "no such file or directory")
  end.

Definition rootDoc : yamlDocument :=
  mkYamlDocument [] ["/abs/file.yaml"] [] [] [] [] [] [].

Definition ParseYAML (buf : string) : result yamlDocument :=
  if (buf =? "/kustomization.yaml") || (buf =? "kustomization.yaml")
  then Ok rootDoc
  else Fail (ErrorString "yaml: line 1: did not find expected key").

Definition resolve : nat -> string -> outcome (list string) :=
  dependenciesForKustomization Stat ReadFile ParseYAML.

End SampleRoot.

(** * Properties *)

(** ** Path functions on samples *)

Example Clean_samples :
  map filepath.Clean
      ["a/c"; "a//c"; "a/c/."; "a/c/b/.."; "/../a/c"; "/../a/b/../././/c";
       ""; "abc/def/../../.."; "../../abc"; "/"; "a/"; "./a"; "a/../.."]
  = ["a/c"; "a/c"; "a/c"; "a/c"; "/a/c"; "/a/c";
     "."; ".."; "../../abc"; "/"; "a"; "a"; ".."].
Proof. reflexivity. Qed.

Example Join_samples :
  (filepath.Join "a" "b", filepath.Join "" "/x", filepath.Join "a" "",
   filepath.Join "." "/abs/x", filepath.Join "a/b" "../c", filepath.Join "" "")
  = ("a/b", "/x", "a", "abs/x", "a/c", "").
Proof. reflexivity. Qed.

Example Dir_Base_samples :
  (map filepath.Dir
       ["base/kustomization.yaml"; "a/base/k.yaml"; "k.yaml"; "/a"; "a/b/"; ""],
   map filepath.Base
       ["base/kustomization.yaml"; "a/b/"; "///"; ""; "x"; "/x"])
  = (["base"; "a/base"; "."; "/"; "a/b"; "."],
     ["kustomization.yaml"; "b"; "/"; "."; "x"; "x"]).
Proof. reflexivity. Qed.

Example Split_samples :
  (strings.Split " " "a b", strings.Split " " "", strings.Split " " "a  b ")
  = (["a"; "b"], [""], ["a"; ""; "b"; ""]).
Proof. reflexivity. Qed.

(** ** The helper predicates *)

Lemma nameAmong_In filename candidates :
  nameAmong filename candidates = true <-> In filename candidates.
Proof.
  induction candidates as [|c rest IH]; simpl.
  - split; [discriminate | tauto].
  - destruct (String.eqb_spec filename c) as [->|Hne].
    + split; auto.
    + rewrite IH. split; [auto | intros [Heq|]; [congruence | assumption]].
Qed.

Example helper_predicates_samples :
  map IsKustomizationBase
      ["base/kustomization.yaml"; "base/deployment.yaml"; "./base/x";
       "overlay/kustomization.yaml"; "a/base/x"; "base"]
  = [true; true; true; false; false; false]
  /\ map IsKustomizationPath
       ["base/kustomization.yaml"; "kustomization.yml"; "a/b/Kustomization";
        "kustomization.yaml/"; "a/kustomization.json"; "Kustomization.yaml"]
     = [true; true; true; true; false; false].
Proof. split; reflexivity. Qed.

(** ** The resolver *)

Section ResolverProperties.

Variable Stat : string -> option os.FileMode.
Variable ReadFile : string -> result string.
Variable ParseYAML : string -> result yamlDocument.

Local Abbreviation pathExistsLocally := (pathExistsLocally Stat).
Local Abbreviation findKustomizationConfig := (findKustomizationConfig Stat).
Local Abbreviation findConfigAmong := (findConfigAmong Stat).
Local Abbreviation candidatesLoop := (candidatesLoop Stat).
Local Abbreviation Unmarshal := (Unmarshal ParseYAML).
Local Abbreviation resolve := (dependenciesForKustomization Stat ReadFile ParseYAML).
Local Abbreviation unusableConfig := (unusableConfig ReadFile ParseYAML).

Lemma findConfigAmong_absent candidates dir :
  (forall name, In name candidates -> fst (pathExistsLocally name dir) = false) ->
  exists err, findConfigAmong candidates dir = Fail err.
Proof.
  induction candidates as [|c rest IH]; intros Habsent; simpl.
  - eauto.
  - rewrite (Habsent c) by (left; reflexivity).
    apply IH. intros name Hin. apply Habsent. right. exact Hin.
Qed.

Lemma findKustomizationConfig_absent dir :
  (forall name, In name kustomizeFilePaths ->
                fst (pathExistsLocally name dir) = false) ->
  exists err, findKustomizationConfig dir = Fail err.
Proof. exact (findConfigAmong_absent kustomizeFilePaths dir). Qed.

Lemma restOfKustomization_no_error dir content deps err :
  restOfKustomization dir content deps <> Some (Fail err).
Proof.
  unfold restOfKustomization.
  destruct (patchesLoop _ _ _); discriminate.
Qed.

Lemma candidatesLoop_app recurse dir pre post deps :
  candidatesLoop recurse dir (pre ++ post) deps =
  match candidatesLoop recurse dir pre deps with
  | Some (Ok deps') => candidatesLoop recurse dir post deps'
  | other => other
  end.
Proof.
  revert deps. induction pre as [|c pre IH]; intros deps; simpl.
  - reflexivity.
  - destruct (pathExistsLocally c dir) as [local mode].
    destruct local; simpl; [|apply IH].
    destruct (os.IsDir mode); [|apply IH].
    destruct (recurse (filepath.Join dir c)) as [[found|e]|]; auto.
Qed.

Lemma candidatesLoop_error recurse dir candidates deps err :
  candidatesLoop recurse dir candidates deps = Some (Fail err) ->
  exists candidate,
    In candidate candidates
    /\ recurse (filepath.Join dir candidate) = Some (Fail err).
Proof.
  revert deps. induction candidates as [|c rest IH]; intros deps; simpl.
  - discriminate.
  - destruct (pathExistsLocally c dir) as [local mode].
    assert (Hrest : forall deps',
               candidatesLoop recurse dir rest deps' = Some (Fail err) ->
               exists candidate,
                 (c = candidate \/ In candidate rest)
                 /\ recurse (filepath.Join dir candidate) = Some (Fail err)).
    { intros deps' H. destruct (IH _ H) as (x & Hin & Hx). eauto. }
    destruct local; simpl; [|apply Hrest].
    destruct (os.IsDir mode); [|apply Hrest].
    destruct (recurse (filepath.Join dir c)) as [[found|e]|] eqn:Hrec.
    + apply Hrest.
    + intros [= ->]. eauto.
    + discriminate.
Qed.

Lemma resolve_error_origin fuel dir err :
  resolve fuel dir = Some (Fail err) ->
  exists dir' path,
    findKustomizationConfig dir' = Ok path /\ unusableConfig path err.
Proof.
  revert dir. induction fuel as [|fuel IH]; intros dir; simpl.
  - discriminate.
  - destruct (findKustomizationConfig dir) as [path|e] eqn:Hfind.
    2: discriminate.
    destruct (ReadFile path) as [buf|e] eqn:Hread.
    2: { intros [= ->]. exists dir, path. split; [assumption | left; assumption]. }
    destruct (Unmarshal buf) as [content|e] eqn:Hparse.
    2: { intros [= ->]. exists dir, path.
         split; [assumption | right; eauto]. }
    destruct (candidatesLoop _ _ _ _) as [[deps|e]|] eqn:Hloop.
    + intros H. exfalso. exact (restOfKustomization_no_error _ _ _ _ H).
    + intros [= ->].
      destruct (candidatesLoop_error _ _ _ _ _ Hloop) as (c & _ & Hc).
      exact (IH _ Hc).
    + discriminate.
Qed.

Lemma candidatesLoop_cons recurse dir candidate rest deps :
  candidatesLoop recurse dir (candidate :: rest) deps =
  let (local, mode) := pathExistsLocally candidate dir in
  if negb local then candidatesLoop recurse dir rest deps
  else if os.IsDir mode then
    match recurse (filepath.Join dir candidate) with
    | None => None
    | Some (Fail err) => Some (Fail err)
    | Some (Ok candidateDeps) =>
        candidatesLoop recurse dir rest (deps ++ candidateDeps)
    end
  else candidatesLoop recurse dir rest (deps ++ [filepath.Join dir candidate]).
Proof. reflexivity. Qed.

Lemma resolve_absent fuel dir :
  (forall name, In name kustomizeFilePaths ->
                fst (pathExistsLocally name dir) = false) ->
  resolve (S fuel) dir = Some (Ok []).
Proof.
  intros Habsent. simpl.
  destruct (findKustomizationConfig_absent _ Habsent) as [e He].
  rewrite He. reflexivity.
Qed.

(** C2. A directory in which none of the accepted kustomization file
    names exists locally resolves to the empty set without an error,
    whatever directory it is; so a candidate that is such a directory
    adds nothing to the set of the directory that names it, and the loop
    goes on. An error comes only from a configuration file that exists and
    cannot be read or does not unmarshal: every error the resolver returns
    is the error of such a file, the error of the directory's own file is
    returned as it is, and the error returned for a candidate directory
    is returned by the caller. *)
Theorem missing_config_is_not_an_error :
  (forall fuel dir,
      (forall name, In name kustomizeFilePaths ->
                    fst (pathExistsLocally name dir) = false) ->
      resolve (S fuel) dir = Some (Ok []))
  /\ (forall fuel dir candidate mode rest deps,
         pathExistsLocally candidate dir = (true, mode) ->
         os.IsDir mode = true ->
         (forall name, In name kustomizeFilePaths ->
                       fst (pathExistsLocally name (filepath.Join dir candidate))
                       = false) ->
         candidatesLoop (resolve (S fuel)) dir (candidate :: rest) deps
         = candidatesLoop (resolve (S fuel)) dir rest deps)
  /\ (forall fuel dir err,
         resolve fuel dir = Some (Fail err) ->
         exists dir' path,
           findKustomizationConfig dir' = Ok path /\ unusableConfig path err)
  /\ (forall fuel dir path err,
         findKustomizationConfig dir = Ok path ->
         unusableConfig path err ->
         resolve (S fuel) dir = Some (Fail err))
  /\ (forall fuel dir path buf content before candidate after deps mode err,
         findKustomizationConfig dir = Ok path ->
         ReadFile path = Ok buf ->
         Unmarshal buf = Ok content ->
         Bases content ++ Resources content = before ++ candidate :: after ->
         candidatesLoop (resolve fuel) dir before [path] = Some (Ok deps) ->
         pathExistsLocally candidate dir = (true, mode) ->
         os.IsDir mode = true ->
         resolve fuel (filepath.Join dir candidate) = Some (Fail err) ->
         resolve (S fuel) dir = Some (Fail err)).
Proof.
  split; [|split; [|split; [|split]]].
  - exact resolve_absent.
  - intros fuel dir candidate mode rest deps Hlocal Hdir Habsent.
    rewrite candidatesLoop_cons, Hlocal. cbn [negb]. rewrite Hdir.
    rewrite (resolve_absent _ _ Habsent), app_nil_r. reflexivity.
  - exact resolve_error_origin.
  - intros fuel dir path err Hfind Hbad. simpl. rewrite Hfind.
    destruct Hbad as [Hread|(buf & Hread & Hparse)]; rewrite Hread.
    + reflexivity.
    + rewrite Hparse. reflexivity.
  - intros fuel dir path buf content before candidate after deps mode err
      Hfind Hread Hparse Hsplit Hbefore Hlocal Hdir Hrec.
    simpl. rewrite Hfind, Hread, Hparse, Hsplit.
    rewrite candidatesLoop_app. simpl. rewrite Hbefore. simpl.
    rewrite Hlocal. simpl. rewrite Hdir, Hrec. reflexivity.
Qed.

End ResolverProperties.

(** ** The shape of a resolved set *)

Lemma fold_left_appends {A} (step : list string -> A -> list string)
    (f : A -> list string) :
  (forall deps x, step deps x = deps ++ f x) ->
  forall l deps, fold_left step l deps = deps ++ flat_map f l.
Proof.
  intros Hstep l. induction l as [|x l IH]; intros deps; simpl.
  - symmetry. apply app_nil_r.
  - rewrite IH, Hstep, <- app_assoc. reflexivity.
Qed.

Lemma strategicMergeLoop_appends dir patches deps :
  strategicMergeLoop dir patches deps
  = deps ++ flat_map (strategicMergeDeps dir) patches.
Proof.
  apply fold_left_appends. intros d p. unfold strategicMergeDeps.
  destruct (smPath p =? ""); simpl; [symmetry; apply app_nil_r | reflexivity].
Qed.

Lemma jsonPatchesLoop_appends dir patches deps :
  jsonPatchesLoop dir patches deps
  = deps ++ flat_map (jsonPatchDeps dir) patches.
Proof.
  apply fold_left_appends. intros d p. unfold jsonPatchDeps.
  destruct (jsonPath p =? ""); simpl; [symmetry; apply app_nil_r | reflexivity].
Qed.

Lemma generatorStep_appends dir deps g :
  generatorStep dir deps g = deps ++ generatorDeps dir g.
Proof.
  unfold generatorStep, generatorDeps, effectiveEnvs.
  destruct (Env g =? ""); simpl; rewrite <- app_assoc; reflexivity.
Qed.

Lemma generatorsLoop_appends dir generators deps :
  generatorsLoop dir generators deps
  = deps ++ flat_map (generatorDeps dir) generators.
Proof. apply fold_left_appends, generatorStep_appends. Qed.

Lemma patchesLoop_appends dir patches deps deps' :
  patchesLoop dir patches deps = Some deps' ->
  deps' = deps ++ flat_map (patchDeps dir) patches.
Proof.
  revert deps. induction patches as [|p rest IH]; intros deps; simpl.
  - intros [= <-]. symmetry. apply app_nil_r.
  - unfold patchDeps at 1. destruct (patchPath_ptr p) as [pp|]; [|discriminate].
    destruct (Path pp =? ""); simpl; intros H; apply IH in H; subst deps'.
    + reflexivity.
    + rewrite <- app_assoc. reflexivity.
Qed.

(** Every decoded [patches] entry has its pointer set. *)
Lemma decodePatches_set nodes patches :
  decodePatches nodes = Ok patches ->
  Forall (fun p => patchPath_ptr p <> None) patches.
Proof.
  revert patches. induction nodes as [|u rest IH]; intros patches; simpl.
  - intros [= <-]. constructor.
  - destruct (patchWrapper_UnmarshalYAML _ u) as [p [e|]] eqn:Hhook;
      [discriminate|].
    destruct (decodePatches rest) as [ps|e]; [|discriminate].
    intros [= <-]. constructor; [|apply IH; reflexivity].
    unfold patchWrapper_UnmarshalYAML in Hhook.
    destruct (intoPatchPath u _) as [pp [e1|]].
    + destruct (intoString u _) as [old [e2|]]; inversion Hhook; discriminate.
    + inversion Hhook. discriminate.
Qed.

Lemma patchesLoop_returns dir patches deps :
  Forall (fun p => patchPath_ptr p <> None) patches ->
  patchesLoop dir patches deps = Some (deps ++ flat_map (patchDeps dir) patches).
Proof.
  intros Hset. revert deps.
  induction Hset as [|p rest Hp _ IH]; intros deps; simpl.
  - rewrite app_nil_r. reflexivity.
  - unfold patchDeps at 1. destruct (patchPath_ptr p) as [pp|]; [|congruence].
    destruct (Path pp =? ""); simpl; rewrite IH; [reflexivity|].
    rewrite <- app_assoc. reflexivity.
Qed.

Lemma restOfKustomization_appends dir content deps deps' :
  restOfKustomization dir content deps = Some (Ok deps') ->
  deps' = deps ++ restDeps dir content.
Proof.
  unfold restOfKustomization, restDeps.
  destruct (patchesLoop _ _ _) as [d|] eqn:Hpatches; [|discriminate].
  intros [= <-]. apply patchesLoop_appends in Hpatches. subst d.
  rewrite !generatorsLoop_appends, jsonPatchesLoop_appends,
    strategicMergeLoop_appends, <- !app_assoc.
  reflexivity.
Qed.

Lemma restOfKustomization_returns dir content deps :
  Forall (fun p => patchPath_ptr p <> None) (Patches content) ->
  restOfKustomization dir content deps = Some (Ok (deps ++ restDeps dir content)).
Proof.
  intros Hset. unfold restOfKustomization, restDeps.
  rewrite (patchesLoop_returns _ _ _ Hset).
  rewrite !generatorsLoop_appends, jsonPatchesLoop_appends,
    strategicMergeLoop_appends, <- !app_assoc.
  reflexivity.
Qed.

Lemma decodeDocument_fields doc content :
  decodeDocument doc = Ok content ->
  decodePatches (docPatches doc) = Ok (Patches content)
  /\ PatchesStrategicMerge content
     = map decodeStrategicMergePatch
         (List.filter yamlv3.handedToHook (docPatchesStrategicMerge doc))
  /\ Bases content = docBases doc
  /\ Resources content = docResources doc
  /\ CRDs content = docCRDs doc
  /\ PatchesJSON6902 content = docPatchesJSON6902 doc
  /\ ConfigMapGenerator content = docConfigMapGenerator doc
  /\ SecretGenerator content = docSecretGenerator doc.
Proof.
  unfold decodeDocument.
  destruct (decodePatches (docPatches doc)) as [ps|e]; [|discriminate].
  intros [= <-]. simpl. repeat split; reflexivity.
Qed.

Section ResolvedShape.

Variable Stat : string -> option os.FileMode.
Variable ReadFile : string -> result string.
Variable ParseYAML : string -> result yamlDocument.

Local Abbreviation pathExistsLocally := (pathExistsLocally Stat).
Local Abbreviation findKustomizationConfig := (findKustomizationConfig Stat).
Local Abbreviation candidatesLoop := (candidatesLoop Stat).
Local Abbreviation unionOfCandidates := (unionOfCandidates Stat).
Local Abbreviation Unmarshal := (Unmarshal ParseYAML).
Local Abbreviation resolve := (dependenciesForKustomization Stat ReadFile ParseYAML).

Lemma candidatesLoop_union recurse dir candidates deps :
  candidatesLoop recurse dir candidates deps =
  match unionOfCandidates recurse dir candidates with
  | Some (Ok found) => Some (Ok (deps ++ found))
  | other => other
  end.
Proof.
  revert deps. induction candidates as [|c rest IH]; intros deps; simpl.
  - rewrite app_nil_r. reflexivity.
  - unfold candidateDeps.
    destruct (pathExistsLocally c dir) as [[|] mode]; simpl.
    + destruct (os.IsDir mode).
      * destruct (recurse (filepath.Join dir c)) as [[found|e]|];
          try reflexivity.
        rewrite IH.
        destruct (unionOfCandidates recurse dir rest) as [[others|e]|];
          try reflexivity.
        rewrite app_assoc. reflexivity.
      * rewrite IH.
        destruct (unionOfCandidates recurse dir rest) as [[others|e]|];
          try reflexivity.
        rewrite <- app_assoc. reflexivity.
    + rewrite IH.
      destruct (unionOfCandidates recurse dir rest) as [[others|e]|];
        reflexivity.
Qed.

Lemma resolve_parsed fuel dir path buf content :
  findKustomizationConfig dir = Ok path ->
  ReadFile path = Ok buf ->
  Unmarshal buf = Ok content ->
  resolve (S fuel) dir =
  match candidatesLoop (resolve fuel) dir
          (Bases content ++ Resources content) [path] with
  | Some (Ok deps) => restOfKustomization dir content deps
  | other => other
  end.
Proof.
  intros Hfind Hread Hparse. simpl. rewrite Hfind, Hread, Hparse.
  destruct (candidatesLoop _ _ _ _) as [[deps|e]|]; reflexivity.
Qed.

(** C3. When the directory has a configuration that parses, the resolver
    records the configuration's path and then goes through the bases
    followed by the resources as one list, in order: a candidate that
    does not exist locally brings nothing, a local directory brings the
    set the resolver returns for it (joined with the current directory),
    a local file brings its path joined with the current directory; the
    sets are put together in that order, and what the rest of the
    configuration brings comes after. *)
Theorem candidates_processed_in_order fuel dir path buf content :
  findKustomizationConfig dir = Ok path ->
  ReadFile path = Ok buf ->
  Unmarshal buf = Ok content ->
  resolve (S fuel) dir =
  match unionOfCandidates (resolve fuel) dir
          (Bases content ++ Resources content) with
  | Some (Ok found) => restOfKustomization dir content ([path] ++ found)
  | other => other
  end.
Proof.
  intros Hfind Hread Hparse.
  rewrite (resolve_parsed _ _ _ _ _ Hfind Hread Hparse), candidatesLoop_union.
  destruct (unionOfCandidates _ _ _) as [[found|e]|]; reflexivity.
Qed.

Lemma Unmarshal_patches_set buf content :
  Unmarshal buf = Ok content ->
  Forall (fun p => patchPath_ptr p <> None) (Patches content).
Proof.
  unfold Unmarshal. destruct (ParseYAML buf) as [doc|e]; [|discriminate].
  intros H. apply decodeDocument_fields in H as (Hpatches & _).
  exact (decodePatches_set _ _ Hpatches).
Qed.

(** The set of a directory whose configuration parses, once the candidates
    are resolved: the configuration, what the candidates bring, what the
    rest brings. *)
Lemma resolve_returns fuel dir path buf content found :
  findKustomizationConfig dir = Ok path ->
  ReadFile path = Ok buf ->
  Unmarshal buf = Ok content ->
  unionOfCandidates (resolve fuel) dir (Bases content ++ Resources content)
  = Some (Ok found) ->
  resolve (S fuel) dir = Some (Ok ([path] ++ found ++ restDeps dir content)).
Proof.
  intros Hfind Hread Hparse Hunion.
  rewrite (resolve_parsed _ _ _ _ _ Hfind Hread Hparse), candidatesLoop_union,
    Hunion.
  rewrite (restOfKustomization_returns _ _ _ (Unmarshal_patches_set _ _ Hparse)).
  rewrite <- app_assoc. reflexivity.
Qed.

(** More fuel does not change what a call returns. *)
Lemma candidatesLoop_mono recurse recurse' dir candidates deps r :
  (forall d r', recurse d = Some r' -> recurse' d = Some r') ->
  candidatesLoop recurse dir candidates deps = Some r ->
  candidatesLoop recurse' dir candidates deps = Some r.
Proof.
  intros Hmore. revert deps.
  induction candidates as [|c rest IH]; intros deps; simpl; [auto|].
  destruct (pathExistsLocally c dir) as [[|] mode]; simpl; [|apply IH].
  destruct (os.IsDir mode); [|apply IH].
  destruct (recurse (filepath.Join dir c)) as [r'|] eqn:Hrec; [|discriminate].
  rewrite (Hmore _ _ Hrec). destruct r' as [found|e]; [apply IH | auto].
Qed.

Lemma resolve_S fuel dir :
  resolve (S fuel) dir =
  match findKustomizationConfig dir with
  | Fail _ => Some (Ok [])
  | Ok path =>
      match ReadFile path with
      | Fail err => Some (Fail err)
      | Ok buf =>
          match Unmarshal buf with
          | Fail err => Some (Fail err)
          | Ok content =>
              match candidatesLoop (resolve fuel) dir
                      (Bases content ++ Resources content) [path] with
              | Some (Ok deps) => restOfKustomization dir content deps
              | other => other
              end
          end
      end
  end.
Proof.
  simpl. destruct (findKustomizationConfig dir) as [path|e]; [|reflexivity].
  destruct (ReadFile path) as [buf|e]; [|reflexivity].
  destruct (Unmarshal buf) as [content|e]; [|reflexivity].
  destruct (candidatesLoop _ _ _ _) as [[deps|e]|]; reflexivity.
Qed.

Lemma resolve_more_fuel fuel dir r :
  resolve fuel dir = Some r -> resolve (S fuel) dir = Some r.
Proof.
  revert dir r. induction fuel as [|fuel IH]; intros dir r; [discriminate|].
  rewrite (resolve_S (S fuel)), (resolve_S fuel).
  destruct (findKustomizationConfig dir) as [path|e]; [|auto].
  destruct (ReadFile path) as [buf|e]; [|auto].
  destruct (Unmarshal buf) as [content|e]; [|auto].
  destruct (candidatesLoop (resolve fuel) _ _ _) as [r'|] eqn:Hloop;
    [|discriminate].
  rewrite (candidatesLoop_mono _ _ _ _ _ _ IH Hloop). auto.
Qed.

Lemma resolve_fuel_monotone fuel fuel' dir r :
  fuel <= fuel' -> resolve fuel dir = Some r -> resolve fuel' dir = Some r.
Proof.
  intros Hle Hr. induction Hle as [|fuel' _ IH]; [exact Hr|].
  apply resolve_more_fuel, IH.
Qed.

End ResolvedShape.

(** C3 on the sample tree: the base directory, the two local files, the
    remote resource and the directory without a kustomization. *)
Lemma sample_overlay_resolved :
  Sample.resolve 3 "overlay" = Some (Ok Sample.overlayDeps).
Proof. vm_compute. reflexivity. Qed.

Lemma candidates_processed_in_order_witness :
  Sample.resolve 3 "overlay" = Some (Ok Sample.overlayDeps).
Proof.
  unfold Sample.resolve.
  eapply eq_trans.
  - eapply (candidates_processed_in_order
              Sample.Stat Sample.ReadFile Sample.ParseYAML 2 "overlay");
      reflexivity.
  - reflexivity.
Defined.

(** C2 on the sample tree: a directory without a kustomization, a
    kustomization that cannot be read, and a base whose kustomization does
    not parse. *)
Lemma missing_config_is_not_an_error_witness :
  Sample.resolve 1 "overlay/plain" = Some (Ok [])
  /\ Sample.resolve 1 "locked"
     = Some (Fail (ErrorString "open locked/kustomization.yaml: permission denied"))
  /\ Sample.resolve 3 "parent"
     = Some (Fail (ErrorString "yaml: line 1: did not find expected key")).
Proof.
  destruct (missing_config_is_not_an_error
              Sample.Stat Sample.ReadFile Sample.ParseYAML)
    as (Habsent & _ & _ & Hown & Hnested).
  unfold Sample.resolve. split; [|split].
  - apply Habsent. intros name [<-|[<-|[<-|[]]]]; reflexivity.
  - eapply (Hown 0 "locked"); [reflexivity | left; reflexivity].
  - eapply (Hnested 2 "parent" _ _ _ ["../overlay"] "../broken" ["../base"]);
      reflexivity.
Defined.

(** ** Patches and generators *)




Lemma Unmarshal_parsed ParseYAML buf doc :
  ParseYAML buf = Ok doc -> Unmarshal ParseYAML buf = decodeDocument doc.
Proof. intros H. unfold Unmarshal. rewrite H. reflexivity. Qed.

Section ContentProperties.

Variable Stat : string -> option os.FileMode.
Variable ReadFile : string -> result string.
Variable ParseYAML : string -> result yamlDocument.

Local Abbreviation findKustomizationConfig := (findKustomizationConfig Stat).
Local Abbreviation unionOfCandidates := (unionOfCandidates Stat).
Local Abbreviation Unmarshal := (Unmarshal ParseYAML).
Local Abbreviation resolve := (dependenciesForKustomization Stat ReadFile ParseYAML).

Local Abbreviation parsedAndResolved := (parsedAndResolved Stat ReadFile ParseYAML).

(** C6. For a directory whose configuration parses and whose candidates
    resolve, the resolver returns a set whose last part is what the config
    map generators and then the secret generators bring, entry by entry:
    the resolved paths of [files], then the resolved paths of [envs], then
    the resolved path of [env] once when [env] is not empty and nothing
    when it is. *)
Theorem generators_add_files_and_envs fuel dir path buf content found :
  parsedAndResolved fuel dir path buf content found ->
  (exists before,
      resolve (S fuel) dir
      = Some (Ok (before
                  ++ flat_map (generatorDeps dir) (ConfigMapGenerator content)
                  ++ flat_map (generatorDeps dir) (SecretGenerator content))))
  /\ (forall g,
         generatorDeps dir g
         = AbsolutePaths dir (Files g)
           ++ AbsolutePaths dir (Envs g)
           ++ (if Env g =? "" then [] else AbsolutePaths dir [Env g])).
Proof.
  intros (Hfind & Hread & Hparse & Hunion). split.
  - rewrite (resolve_returns _ _ _ _ _ _ _ _ _ Hfind Hread Hparse Hunion).
    unfold restDeps. eexists. rewrite !app_assoc. reflexivity.
  - intros g. unfold generatorDeps, effectiveEnvs, AbsolutePaths.
    destruct (Env g =? ""); [rewrite app_nil_r; reflexivity|].
    rewrite map_app. reflexivity.
Qed.



End ContentProperties.

Ltac in_list := repeat first [left; reflexivity | right].





(** C6 on the sample tree: [one.env] follows [a.env] and [b.env]; the
    secret generator has no [env]. *)
Lemma generators_add_files_and_envs_witness :
  exists before,
    Sample.resolve 3 "overlay"
    = Some (Ok (before
                ++ ["overlay/cfg.properties"; "overlay/a.env"; "overlay/b.env";
                    "overlay/one.env"]
                ++ ["/abs/secret.txt"; "overlay/s.env"])).
Proof.
  destruct (generators_add_files_and_envs
              Sample.Stat Sample.ReadFile Sample.ParseYAML
              2 "overlay" _ _ _ _
              (conj eq_refl (conj eq_refl (conj eq_refl eq_refl))))
    as ((before & Heq) & _).
  exists before. exact Heq.
Defined.

(** ** A relative directory joined with anything stays relative *)

Lemma IsAbs_String c s :
  filepath.IsAbs (String c s) = Ascii.eqb c filepath.Separator.
Proof.
  unfold filepath.IsAbs, strings.HasPrefix, filepath.Separator.
  cbn -[ascii_dec]. destruct (ascii_dec "/" c) as [<-|Hne].
  - destruct s; reflexivity.
  - symmetry. apply Ascii.eqb_neq. congruence.
Qed.

Lemma IsAbs_append a b :
  a <> "" -> filepath.IsAbs (a +:+ b) = filepath.IsAbs a.
Proof.
  destruct a as [|c a]; [congruence|]. intros _.
  change (String c a +:+ b) with (String c (a +:+ b)).
  rewrite !IsAbs_String. reflexivity.
Qed.

Lemma Split_relative s :
  Forall (fun e => filepath.IsAbs e = false)
         (strings.Split filepath.Separator s).
Proof.
  induction s as [|c s IH]; simpl.
  - repeat constructor.
  - destruct (Ascii.eqb c filepath.Separator) eqn:Hc.
    + constructor; [reflexivity | exact IH].
    + destruct (strings.Split filepath.Separator s) as [|h t].
      * repeat constructor. rewrite IsAbs_String. exact Hc.
      * inversion IH; subst. constructor; [|assumption].
        rewrite IsAbs_String. exact Hc.
Qed.

Lemma cleanElem_kept rooted out e :
  Forall keptElement out ->
  filepath.IsAbs e = false ->
  Forall keptElement (filepath.cleanElem rooted out e).
Proof.
  intros Hout He. unfold filepath.cleanElem.
  destruct (String.eqb_spec e "") as [->|Hne]; simpl; [exact Hout|].
  destruct (e =? "."); simpl; [exact Hout|].
  assert (Hpush : Forall keptElement (e :: out)).
  { constructor; [split; assumption | exact Hout]. }
  destruct (e =? ".."); [|exact Hpush].
  destruct out as [|top rest].
  - destruct rooted; simpl; [constructor | exact Hpush].
  - destruct (top =? ".."); simpl.
    + destruct rooted; simpl; [exact Hout | exact Hpush].
    + inversion Hout; assumption.
Qed.

Lemma fold_cleanElem_kept rooted elems out :
  Forall keptElement out ->
  Forall (fun e => filepath.IsAbs e = false) elems ->
  Forall keptElement (fold_left (filepath.cleanElem rooted) elems out).
Proof.
  intros Hout Helems. revert out Hout.
  induction Helems as [|e elems He _ IH]; intros out Hout; simpl.
  - exact Hout.
  - apply IH, cleanElem_kept; assumption.
Qed.

Lemma Join_kept elems :
  Forall keptElement elems ->
  filepath.IsAbs (strings.Join elems "/") = false.
Proof.
  intros Helems. destruct Helems as [|e rest [Hne Hrel] _]; simpl.
  - reflexivity.
  - destruct rest; [exact Hrel|].
    rewrite IsAbs_append by exact Hne. exact Hrel.
Qed.

Lemma Clean_relative path :
  filepath.IsAbs path = false -> filepath.IsAbs (filepath.Clean path) = false.
Proof.
  intros Hrel. unfold filepath.Clean.
  destruct (path =? ""); [reflexivity|].
  rewrite Hrel.
  pose proof (fold_cleanElem_kept false _ [] (List.Forall_nil _) (Split_relative path))
    as Hkept.
  destruct (fold_left _ _ _) as [|top rest] eqn:Hout; [reflexivity|].
  apply Join_kept. apply Forall_rev in Hkept. exact Hkept.
Qed.

Lemma Join_relative dir name :
  dir <> "" ->
  filepath.IsAbs dir = false ->
  filepath.IsAbs (filepath.Join dir name) = false.
Proof.
  intros Hne Hrel. unfold filepath.Join.
  destruct (String.eqb_spec dir "") as [->|_]; [congruence|]. simpl.
  apply Clean_relative. rewrite IsAbs_append; assumption.
Qed.

(** ** Absolute candidates *)



(** ** [Dependencies] *)

#[local] Instance stringSet_le_total : Total stringSet.le.
Proof.
  intros a b. unfold stringSet.le.
  destruct (String.leb_total a b) as [H|H]; rewrite H; [left | right]; exact I.
Qed.

Lemma stringSet_insert_elem (s : gset string) (strs : list string) (x : string) :
  x ∈ stringSet.insert s strs <-> x ∈ s \/ In x strs.
Proof.
  unfold stringSet.insert. revert s.
  induction strs as [|str rest IH]; intros s; simpl.
  - tauto.
  - rewrite IH, elem_of_union, elem_of_singleton.
    split; intros H; intuition (subst; auto).
Qed.

Lemma stringSet_toList_spec (s : gset string) :
  Sorted stringSet.le (stringSet.toList s)
  /\ NoDup (stringSet.toList s)
  /\ (forall x, In x (stringSet.toList s) <-> x ∈ s).
Proof.
  unfold stringSet.toList. split; [|split].
  - apply Sorted_merge_sort. apply _.
  - rewrite merge_sort_Permutation. apply NoDup_elements.
  - intros x. rewrite <- list_elem_of_In, merge_sort_Permutation.
    apply elem_of_elements.
Qed.

Section DependenciesProperties.

Variable Stat : string -> option os.FileMode.
Variable ReadFile : string -> result string.
Variable ParseYAML : string -> result yamlDocument.

Local Abbreviation resolve := (dependenciesForKustomization Stat ReadFile ParseYAML).
Local Abbreviation dependenciesLoop := (dependenciesLoop Stat ReadFile ParseYAML).
Local Abbreviation resolvedTo := (resolvedTo Stat ReadFile ParseYAML).

Lemma Dependencies_loop fuel paths :
  Dependencies Stat ReadFile ParseYAML fuel paths
  = match dependenciesLoop fuel paths stringSet.new with
    | None => None
    | Some (Fail err) => Some (Fail err)
    | Some (Ok deps) => Some (Ok (stringSet.toList deps))
    end.
Proof. reflexivity. Qed.

Local Abbreviation Dependencies := (Dependencies Stat ReadFile ParseYAML).

Lemma dependenciesLoop_resolved fuel paths results deps :
  resolvedTo fuel paths results ->
  exists deps',
    dependenciesLoop fuel paths deps = Some (Ok deps')
    /\ forall x, x ∈ deps' <-> x ∈ deps \/ exists d, In d results /\ In x d.
Proof.
  intros Hres. revert deps.
  induction Hres as [|path d paths results Hpath _ IH]; intros deps; simpl.
  - exists deps. split; [reflexivity|]. intros x. split; [auto|].
    intros [H|(d & [] & _)]. exact H.
  - rewrite Hpath. destruct (IH (stringSet.insert deps d)) as (deps' & -> & Hin).
    exists deps'. split; [reflexivity|]. intros x.
    rewrite Hin, stringSet_insert_elem. split.
    + intros [[H|H]|(d' & Hd' & Hx)]; eauto 6.
    + intros [H|(d' & [<-|Hd'] & Hx)]; eauto 6.
Qed.

Lemma dependenciesLoop_first_error fuel before path after results err deps :
  resolvedTo fuel before results ->
  resolve fuel path = Some (Fail err) ->
  dependenciesLoop fuel (before ++ path :: after) deps = Some (Fail err).
Proof.
  intros Hres Hpath. revert deps.
  induction Hres as [|p d paths results Hp _ IH]; intros deps; simpl.
  - rewrite Hpath. reflexivity.
  - rewrite Hp. apply IH.
Qed.

Lemma dependenciesLoop_any_error fuel paths path err deps deps' :
  In path paths ->
  resolve fuel path = Some (Fail err) ->
  dependenciesLoop fuel paths deps <> Some (Ok deps').
Proof.
  intros Hin Hpath. revert deps.
  induction paths as [|p rest IH]; intros deps; simpl; [destruct Hin|].
  destruct Hin as [->|Hin].
  - rewrite Hpath. discriminate.
  - destruct (resolve fuel p) as [[d|e]|]; try discriminate.
    apply IH, Hin.
Qed.

(** C5. When every configured path resolves, [Dependencies] returns a
    list that is sorted, has no duplicates, and holds exactly the paths
    that are in the set of one of the configured paths, each resolved on
    its own. When the resolution of a configured path fails, after the
    paths before it resolved, [Dependencies] returns that error; and
    whenever the resolution of some configured path fails,
    [Dependencies] returns no list. *)
Theorem Dependencies_sorted_union :
  (forall fuel paths results,
      resolvedTo fuel paths results ->
      exists l,
        Dependencies fuel paths = Some (Ok l)
        /\ Sorted stringSet.le l
        /\ NoDup l
        /\ forall x, In x l <-> exists d, In d results /\ In x d)
  /\ (forall fuel before path after results err,
         resolvedTo fuel before results ->
         resolve fuel path = Some (Fail err) ->
         Dependencies fuel (before ++ path :: after) = Some (Fail err))
  /\ (forall fuel paths path err l,
         In path paths ->
         resolve fuel path = Some (Fail err) ->
         Dependencies fuel paths <> Some (Ok l)).
Proof.
  split; [|split].
  - intros fuel paths results Hres.
    destruct (dependenciesLoop_resolved _ _ _ stringSet.new Hres)
      as (deps & Hloop & Hin).
    destruct (stringSet_toList_spec deps) as (Hsorted & Hnodup & Hlist).
    exists (stringSet.toList deps). rewrite Dependencies_loop, Hloop.
    repeat split; try assumption.
    + intros Hx. apply Hlist, Hin in Hx. destruct Hx as [Hx|Hx]; [|exact Hx].
      exfalso. revert Hx. apply not_elem_of_empty.
    + intros Hx. apply Hlist, Hin. right. exact Hx.
  - intros fuel before path after results err Hres Hpath.
    rewrite Dependencies_loop.
    rewrite (dependenciesLoop_first_error _ _ _ _ _ _ _ Hres Hpath).
    reflexivity.
  - intros fuel paths path err l Hin Hpath. rewrite Dependencies_loop.
    destruct (dependenciesLoop fuel paths stringSet.new) as [[deps|e]|] eqn:Hloop;
      try discriminate.
    exfalso.
    exact (dependenciesLoop_any_error _ _ _ _ _ _ Hin Hpath Hloop).
Qed.

End DependenciesProperties.

(** ** The render and deploy pipeline *)

Lemma bind_result {A B} (c : Logged A) (k : A -> Logged B) :
  bind c k = (fst c ++ fst (k (snd c)), snd (k (snd c))).
Proof. unfold bind. destruct c as [log a]. simpl. destruct (k a). reflexivity. Qed.

Lemma log_cons {A} (ev : Event) (c : Logged A) :
  fst (let (log, a) := c in (ev :: log, a)) = ev :: fst c.
Proof. destruct c. reflexivity. Qed.

Section PipelineProperties.

Variables Artifact Labels InsecureRegistries DebugHelpersRegistry : Type.
Variable CheckVersion : option error.
Variable GetDebugHelpersRegistry : string -> result DebugHelpersRegistry.
Variable RunCmdOut : string -> list string -> result string.
Variable Append : ManifestList -> string -> ManifestList.
Variable ReplaceImages : ManifestList -> list Artifact -> result ManifestList.
Variable manifestTransforms :
  list (ManifestList -> list Artifact ->
        Registries InsecureRegistries DebugHelpersRegistry ->
        result ManifestList).
Variable SetLabels : ManifestList -> Labels -> result ManifestList.
Variable CollectNamespaces : ManifestList -> list string * option error.
Variable Apply : ManifestList -> option error.

Implicit Types k : KustomizeDeployer Labels InsecureRegistries.

Local Abbreviation prints := (prints RunCmdOut).
Local Abbreviation readManifestsLoop := (readManifestsLoop RunCmdOut Append).
Local Abbreviation readManifests := (readManifests RunCmdOut Append).
Local Abbreviation renderManifests :=
  (renderManifests CheckVersion GetDebugHelpersRegistry RunCmdOut Append
     ReplaceImages manifestTransforms SetLabels).
Local Abbreviation Deploy :=
  (Deploy CheckVersion GetDebugHelpersRegistry RunCmdOut Append
     ReplaceImages manifestTransforms SetLabels CollectNamespaces Apply).


(** Reading the manifests only runs the kustomize command. *)
Lemma readManifestsLoop_log k paths manifests :
  Forall (fun ev => isApply ev = false /\ isTransformStep ev = false)
         (fst (readManifestsLoop k paths manifests)).
Proof.
  revert manifests. induction paths as [|path rest IH]; intros manifests.
  - constructor.
  - simpl. rewrite log_cons. constructor; [split; reflexivity|].
    destruct (RunCmdOut _ _) as [out|err]; [|constructor].
    destruct (String.length out =? 0)%nat; apply IH.
Qed.

Lemma transformsLoop_log
    (transforms :
       list (ManifestList -> list Artifact ->
             Registries InsecureRegistries DebugHelpersRegistry ->
             result ManifestList))
    index manifests builds registries :
  Forall (fun ev => isApply ev = false)
         (fst (transformsLoop transforms index manifests builds registries)).
Proof.
  revert index manifests.
  induction transforms as [|transform rest IH]; intros index manifests.
  - constructor.
  - simpl. rewrite log_cons. constructor; [reflexivity|].
    destruct (transform _ _ _) as [m|err]; [apply IH | constructor].
Qed.

(** Rendering never applies. *)
Lemma renderManifests_log k builds :
  Forall (fun ev => isApply ev = false) (fst (renderManifests k builds)).
Proof.
  unfold renderManifests. rewrite !bind_result. cbn [fst snd call ret].
  constructor; [reflexivity|]. apply Forall_app. split.
  { destruct CheckVersion; repeat constructor. }
  constructor; [reflexivity|].
  destruct (GetDebugHelpersRegistry _) as [registry|err]; [|constructor].
  rewrite bind_result. cbn [fst snd]. apply Forall_app. split.
  { eapply Forall_impl; [apply readManifestsLoop_log|]. intros ev [H _]. exact H. }
  destruct (snd (readManifests k)) as [manifests|err]; [|constructor].
  destruct (length manifests =? 0)%nat; [constructor|].
  rewrite bind_result. cbn [fst snd call]. constructor; [reflexivity|].
  destruct (ReplaceImages _ _) as [replaced|err]; [|constructor].
  rewrite bind_result. cbn [fst snd]. apply Forall_app. split.
  { apply transformsLoop_log. }
  destruct (snd (transformsLoop _ _ _ _ _)) as [transformed|err];
    repeat constructor.
Qed.


(** C8. When rendering succeeds with no manifest, [Deploy] reports
    success with no namespace and does not call apply. When rendering
    fails, [Deploy] reports the failure and does not call apply. When
    there are manifests and the collection of the namespaces fails,
    [Deploy] still calls apply on the manifests, and its result is the
    result of apply: success with the namespaces that the collection
    returned, or the failure of apply. *)
Theorem Deploy_outcomes k builds :
  (forall manifests,
      snd (renderManifests k builds) = Ok manifests ->
      length manifests = 0%nat ->
      snd (Deploy k builds) = NewDeploySuccessResult []
      /\ Forall (fun ev => isApply ev = false) (fst (Deploy k builds)))
  /\ (forall err,
         snd (renderManifests k builds) = Fail err ->
         snd (Deploy k builds) = NewDeployErrorResult err
         /\ Forall (fun ev => isApply ev = false) (fst (Deploy k builds)))
  /\ (forall manifests namespaces err,
         snd (renderManifests k builds) = Ok manifests ->
         length manifests <> 0%nat ->
         CollectNamespaces manifests = (namespaces, Some err) ->
         In (ApplyCall manifests) (fst (Deploy k builds))
         /\ snd (Deploy k builds)
            = match Apply manifests with
              | None => NewDeploySuccessResult namespaces
              | Some applyErr => NewDeployErrorResult applyErr
              end).
Proof.
  pose proof (renderManifests_log k builds) as Hlog.
  split; [|split].
  - intros manifests Hrender Hlen.
    unfold Deploy. rewrite ?bind_result. cbn [fst snd call ret].
    rewrite Hrender, Hlen. cbn [Nat.eqb]. rewrite ?bind_result.
    cbn [fst snd call ret]. split; [reflexivity|].
    constructor; [reflexivity|]. apply Forall_app. split; [exact Hlog|].
    repeat constructor.
  - intros err Hrender.
    unfold Deploy. rewrite ?bind_result. cbn [fst snd call ret].
    rewrite Hrender. rewrite ?bind_result. cbn [fst snd call ret].
    split; [reflexivity|].
    constructor; [reflexivity|]. apply Forall_app. split; [exact Hlog|].
    repeat constructor.
  - intros manifests namespaces err Hrender Hlen Hcollect.
    unfold Deploy. rewrite ?bind_result. cbn [fst snd call ret].
    rewrite Hrender. apply Nat.eqb_neq in Hlen. rewrite Hlen.
    rewrite ?bind_result. cbn [fst snd call ret]. rewrite Hcollect.
    rewrite ?bind_result. cbn [fst snd call ret].
    split.
    + do 4 (apply in_or_app; right). apply in_or_app. left. left.
      reflexivity.
    + destruct (Apply manifests); reflexivity.
Qed.

End PipelineProperties.

(** C5 on the sample tree: [overlay] and [base] share two paths, listed
    once; with [broken] between them the call fails. *)
Lemma Dependencies_sorted_union_witness :
  (exists l,
      Dependencies Sample.Stat Sample.ReadFile Sample.ParseYAML 3
        ["overlay"; "base"] = Some (Ok l)
      /\ Sorted stringSet.le l
      /\ NoDup l
      /\ forall x,
          In x l <-> exists d, In d [Sample.overlayDeps; Sample.baseDeps] /\ In x d)
  /\ Dependencies Sample.Stat Sample.ReadFile Sample.ParseYAML 3
       ["overlay"; "broken"; "base"]
     = Some (Fail (ErrorString "yaml: line 1: did not find expected key")).
Proof.
  destruct (Dependencies_sorted_union
              Sample.Stat Sample.ReadFile Sample.ParseYAML)
    as (Hunion & Hfirst & _).
  split.
  - apply Hunion. constructor; [exact sample_overlay_resolved|].
    constructor; [reflexivity | constructor].
  - apply (Hfirst 3 ["overlay"] "broken" ["base"] [Sample.overlayDeps]).
    + constructor; [exact sample_overlay_resolved | constructor].
    + reflexivity.
Defined.


(** C8 on the sample collaborators: no manifest, a failing render, and a
    failing namespace collection. *)
Lemma Deploy_outcomes_witness :
  (snd (SamplePipeline.deploy ["empty"]) = NewDeploySuccessResult []
   /\ Forall (fun ev => isApply ev = false) (fst (SamplePipeline.deploy ["empty"])))
  /\ (snd (SamplePipeline.deploy ["overlay"; "broken"])
      = NewDeployErrorResult
          (Errorf "reading manifests: "
             (Errorf "kustomize build: " (ErrorString "exit status 1")))
      /\ Forall (fun ev => isApply ev = false)
           (fst (SamplePipeline.deploy ["overlay"; "broken"])))
  /\ (In (ApplyCall ["kind: Deployment # overlay"])
         (fst (SamplePipeline.deploy ["overlay"]))
      /\ snd (SamplePipeline.deploy ["overlay"]) = NewDeploySuccessResult []).
Proof.
  pose proof (fun paths =>
                Deploy_outcomes
                  unit unit unit string None
                  SamplePipeline.GetDebugHelpersRegistry
                  SamplePipeline.RunCmdOut SamplePipeline.Append
                  SamplePipeline.ReplaceImages [SamplePipeline.transform]
                  SamplePipeline.SetLabels SamplePipeline.CollectNamespaces
                  SamplePipeline.Apply (SamplePipeline.deployer paths) [])
    as Houtcomes.
  split; [|split].
  - destruct (Houtcomes ["empty"]) as (Hnone & _ & _).
    apply (Hnone []); reflexivity.
  - destruct (Houtcomes ["overlay"; "broken"]) as (_ & Hfail & _).
    apply Hfail. reflexivity.
  - destruct (Houtcomes ["overlay"]) as (_ & _ & Hcollect).
    apply (Hcollect ["kind: Deployment # overlay"] []
             (ErrorString "failed to parse manifest"));
      [reflexivity | discriminate | reflexivity].
Defined.

(** * Further properties *)

(** ** The last element of a joined path *)

Lemma append_String (c : ascii) (a b : string) :
  String c a +:+ b = String c (a +:+ b).
Proof. reflexivity. Qed.

Lemma append_empty (b : string) : "" +:+ b = b.
Proof. reflexivity. Qed.

Lemma string_append_assoc (a b c : string) :
  (a +:+ b) +:+ c = a +:+ (b +:+ c).
Proof.
  induction a as [|x a IH]; [reflexivity|].
  rewrite !append_String, IH. reflexivity.
Qed.

Lemma string_append_nonempty (a b : string) : b <> "" -> a +:+ b <> "".
Proof.
  destruct a; [rewrite append_empty; auto | rewrite append_String; discriminate].
Qed.

Lemma Split_nonempty sep s : strings.Split sep s <> [].
Proof.
  destruct s as [|c s]; simpl; [discriminate|].
  destruct (Ascii.eqb c sep); [discriminate|].
  destruct (strings.Split sep s); discriminate.
Qed.

Lemma Split_append sep a b :
  strings.Split sep (a +:+ String sep b)
  = strings.Split sep a ++ strings.Split sep b.
Proof.
  induction a as [|c a IH].
  - rewrite append_empty. simpl. rewrite Ascii.eqb_refl. reflexivity.
  - rewrite append_String. simpl.
    destruct (Ascii.eqb c sep); rewrite IH; [reflexivity|].
    pose proof (Split_nonempty sep a) as Hne.
    destruct (strings.Split sep a) as [|h t]; [congruence | reflexivity].
Qed.

Lemma Split_without_separator s :
  filepath.hasSeparator s = false -> strings.Split filepath.Separator s = [s].
Proof.
  induction s as [|c s IH]; simpl; [reflexivity|].
  intros H. apply orb_false_iff in H as [Hc Hs].
  rewrite Hc, (IH Hs). reflexivity.
Qed.

Lemma simpleName_relative name :
  filepath.hasSeparator name = false -> filepath.IsAbs name = false.
Proof.
  destruct name as [|c s]; [reflexivity|]. simpl. intros H.
  apply orb_false_iff in H as [Hc _]. rewrite IsAbs_String. exact Hc.
Qed.

Lemma cleanElem_simple rooted out name :
  simpleName name -> filepath.cleanElem rooted out name = name :: out.
Proof.
  intros (Hne & Hdot & Hdotdot & _). unfold filepath.cleanElem.
  apply String.eqb_neq in Hne, Hdot, Hdotdot.
  rewrite Hne, Hdot, Hdotdot. reflexivity.
Qed.

(** A path that ends with the element [name]: [name] itself, or [name]
    after a separator. *)
Lemma Join_last elems name :
  exists before,
    strings.Join (elems ++ [name]) "/" = before +:+ name
    /\ (before = "" \/ exists start, before = start +:+ "/").
Proof.
  induction elems as [|e rest (before & Heq & Hshape)].
  - exists "". split; [reflexivity | left; reflexivity].
  - exists (e +:+ "/" +:+ before). split.
    + change ((e :: rest) ++ [name]) with (e :: (rest ++ [name])).
      cbn [strings.Join]. rewrite Heq.
      destruct (rest ++ [name]) eqn:Hrest.
      * destruct rest; discriminate.
      * rewrite !string_append_assoc. reflexivity.
    + right. destruct Hshape as [->|(start & ->)].
      * exists e. reflexivity.
      * exists (e +:+ "/" +:+ start). rewrite !string_append_assoc. reflexivity.
Qed.

Lemma trimTrailingSeparators_kept before name :
  filepath.hasSeparator name = false -> name <> "" ->
  filepath.trimTrailingSeparators (before +:+ name) = before +:+ name.
Proof.
  intros Hsep Hne. induction before as [|c before IH].
  - rewrite append_empty. clear Hne.
    induction name as [|c s IH]; simpl; [reflexivity|].
    simpl in Hsep. apply orb_false_iff in Hsep as [Hc Hs].
    change (Ascii.eqb c "/") with (Ascii.eqb c filepath.Separator).
    rewrite Hc, (IH Hs). reflexivity.
  - rewrite append_String. simpl. rewrite IH.
    destruct (String.eqb_spec (before +:+ name) "") as [Hempty|_].
    + exfalso. exact (string_append_nonempty _ _ Hne Hempty).
    + rewrite andb_false_r. reflexivity.
Qed.

Lemma hasSeparator_append a b :
  filepath.hasSeparator (a +:+ b)
  = filepath.hasSeparator a || filepath.hasSeparator b.
Proof.
  induction a as [|c a IH]; [reflexivity|].
  rewrite append_String. simpl. rewrite IH, orb_assoc. reflexivity.
Qed.

Lemma afterLastSeparator_without s :
  filepath.hasSeparator s = false -> filepath.afterLastSeparator s = s.
Proof.
  destruct s as [|c s]; simpl; [reflexivity|]. intros H.
  apply orb_false_iff in H as [Hc Hs]. rewrite Hs.
  change (Ascii.eqb c "/") with (Ascii.eqb c filepath.Separator).
  rewrite Hc. reflexivity.
Qed.

Lemma afterLastSeparator_last start name :
  filepath.hasSeparator name = false ->
  filepath.afterLastSeparator (start +:+ "/" +:+ name) = name.
Proof.
  intros Hsep. induction start as [|c start IH].
  - rewrite append_empty, append_String, append_empty. simpl.
    rewrite Hsep. reflexivity.
  - rewrite append_String. simpl.
    rewrite hasSeparator_append, append_String. simpl.
    rewrite orb_true_r. exact IH.
Qed.

Lemma Base_last before name :
  simpleName name ->
  before = "" \/ (exists start, before = start +:+ "/") ->
  filepath.Base (before +:+ name) = name.
Proof.
  intros (Hne & _ & _ & Hsep) Hshape. unfold filepath.Base.
  destruct (String.eqb_spec (before +:+ name) "") as [Hempty|_].
  { exfalso. exact (string_append_nonempty _ _ Hne Hempty). }
  rewrite (trimTrailingSeparators_kept _ _ Hsep Hne).
  assert (Hlast : filepath.afterLastSeparator (before +:+ name) = name).
  { destruct Hshape as [->|(start & ->)].
    - apply afterLastSeparator_without, Hsep.
    - rewrite string_append_assoc. apply afterLastSeparator_last, Hsep. }
  rewrite Hlast. apply String.eqb_neq in Hne. rewrite Hne. reflexivity.
Qed.

Lemma Clean_last path name :
  simpleName name ->
  path = name \/ (exists start, path = start +:+ "/" +:+ name) ->
  exists before,
    filepath.Clean path = before +:+ name
    /\ (before = "" \/ exists start, before = start +:+ "/").
Proof.
  intros Hname Hpath.
  pose proof Hname as (Hne & _ & _ & Hsep).
  assert (Hsplit : exists elems,
             strings.Split filepath.Separator path = elems ++ [name]).
  { destruct Hpath as [->|(start & ->)].
    - exists []. apply Split_without_separator, Hsep.
    - exists (strings.Split filepath.Separator start).
      change ("/" +:+ name) with (String filepath.Separator name).
      rewrite Split_append, (Split_without_separator _ Hsep). reflexivity. }
  destruct Hsplit as (elems & Hsplit).
  assert (Hpathne : path <> "").
  { destruct Hpath as [->|(start & ->)]; [exact Hne|].
    apply string_append_nonempty. discriminate. }
  unfold filepath.Clean. apply String.eqb_neq in Hpathne. rewrite Hpathne.
  rewrite Hsplit, fold_left_app. cbn [fold_left].
  rewrite (cleanElem_simple _ _ _ Hname). cbn [rev].
  destruct (Join_last (rev (fold_left (filepath.cleanElem (filepath.IsAbs path))
                              elems [])) name)
    as (before & Heq & Hshape).
  destruct (filepath.IsAbs path).
  - exists ("/" +:+ before). rewrite Heq. split; [reflexivity|].
    right. destruct Hshape as [->|(start & ->)].
    + exists "". reflexivity.
    + exists ("/" +:+ start). reflexivity.
  - exists before. split; [exact Heq | exact Hshape].
Qed.

(** Joining a directory and a simple name gives a path whose last
    element is the name. *)
Lemma Base_Join dir name :
  simpleName name -> filepath.Base (filepath.Join dir name) = name.
Proof.
  intros Hname. pose proof Hname as (Hne & _).
  assert (Hclean : exists path,
             filepath.Join dir name = filepath.Clean path
             /\ (path = name \/ exists start, path = start +:+ "/" +:+ name)).
  { unfold filepath.Join. destruct (String.eqb_spec dir "") as [->|Hdir]; simpl.
    - apply String.eqb_neq in Hne. rewrite Hne. simpl. eauto.
    - eauto. }
  destruct Hclean as (path & -> & Hpath).
  destruct (Clean_last _ _ Hname Hpath) as (before & -> & Hshape).
  apply Base_last; assumption.
Qed.

(** ** The configuration file of a directory *)

Lemma kustomizeFilePaths_simple name :
  In name kustomizeFilePaths -> simpleName name.
Proof.
  intros [<-|[<-|[<-|[]]]]; repeat split; discriminate.
Qed.

Lemma pathExistsLocally_relative Stat filename dir :
  filepath.IsAbs filename = false ->
  pathExistsLocally Stat filename dir
  = match Stat (filepath.Join dir filename) with
    | Some mode => (true, mode)
    | None => (false, 0%Z)
    end.
Proof. intros Hrel. unfold pathExistsLocally. rewrite Hrel. reflexivity. Qed.

Section LocatorProperties.

Variable Stat : string -> option os.FileMode.
Variable ReadFile : string -> result string.
Variable ParseYAML : string -> result yamlDocument.

Local Abbreviation pathExistsLocally := (pathExistsLocally Stat).
Local Abbreviation findKustomizationConfig := (findKustomizationConfig Stat).
Local Abbreviation findConfigAmong := (findConfigAmong Stat).
Local Abbreviation candidatesLoop := (candidatesLoop Stat).
Local Abbreviation unionOfCandidates := (unionOfCandidates Stat).
Local Abbreviation Unmarshal := (Unmarshal ParseYAML).
Local Abbreviation resolve := (dependenciesForKustomization Stat ReadFile ParseYAML).
Local Abbreviation parsedAndResolved := (parsedAndResolved Stat ReadFile ParseYAML).

Lemma findConfigAmong_first candidates dir path :
  findConfigAmong candidates dir = Ok path <->
  exists before name after,
    candidates = before ++ name :: after
    /\ Forall (fun n => fst (pathExistsLocally n dir) = false) before
    /\ fst (pathExistsLocally name dir) = true
    /\ path = filepath.Join dir name.
Proof.
  induction candidates as [|c rest IH]; simpl.
  - split; [discriminate|]. intros (before & name & after & H & _).
    destruct before; discriminate.
  - destruct (fst (pathExistsLocally c dir)) eqn:Hc.
    + split.
      * intros [= <-]. exists [], c, rest. repeat split; [constructor | exact Hc].
      * intros (before & name & after & Heq & Hbefore & Hname & ->).
        destruct before as [|b before]; simpl in Heq; inversion Heq; subst.
        -- reflexivity.
        -- inversion Hbefore; congruence.
    + rewrite IH. split.
      * intros (before & name & after & -> & Hbefore & Hname & ->).
        exists (c :: before), name, after.
        repeat split; [constructor; assumption | exact Hname].
      * intros (before & name & after & Heq & Hbefore & Hname & ->).
        destruct before as [|b before]; simpl in Heq; inversion Heq; subst.
        -- congruence.
        -- inversion Hbefore; subst. exists before, name, after.
           repeat split; assumption.
Qed.

Lemma findConfigAmong_fails candidates dir :
  (exists err, findConfigAmong candidates dir = Fail err) <->
  Forall (fun n => fst (pathExistsLocally n dir) = false) candidates.
Proof.
  induction candidates as [|c rest IH]; simpl.
  - split; [constructor | eauto].
  - destruct (fst (pathExistsLocally c dir)) eqn:Hc.
    + split; [intros (err & H); discriminate|].
      intros H. inversion H; congruence.
    + rewrite IH. split; [constructor; assumption|].
      intros H. inversion H; assumption.
Qed.

(** X1. The locator returns the first of the accepted names, in the order
    of the list, that exists in the directory, joined with the directory;
    it fails exactly when none of them exists. *)
Theorem located_config_is_first_match dir :
  (forall path,
      findKustomizationConfig dir = Ok path <->
      exists before name after,
        kustomizeFilePaths = before ++ name :: after
        /\ Forall (fun n => fst (pathExistsLocally n dir) = false) before
        /\ fst (pathExistsLocally name dir) = true
        /\ path = filepath.Join dir name)
  /\ ((exists err, findKustomizationConfig dir = Fail err) <->
      Forall (fun n => fst (pathExistsLocally n dir) = false) kustomizeFilePaths).
Proof.
  split.
  - intros path. exact (findConfigAmong_first kustomizeFilePaths dir path).
  - exact (findConfigAmong_fails kustomizeFilePaths dir).
Qed.

Lemma located_config_name dir path :
  findKustomizationConfig dir = Ok path ->
  exists name,
    In name kustomizeFilePaths
    /\ path = filepath.Join dir name
    /\ fst (pathExistsLocally name dir) = true.
Proof.
  intros H. apply (findConfigAmong_first kustomizeFilePaths) in H
    as (before & name & after & Heq & _ & Hname & ->).
  exists name. repeat split; [|exact Hname].
  rewrite Heq. apply in_or_app. right. left. reflexivity.
Qed.

(** X2. The path the locator returns has one of the accepted names as its
    last element, so [IsKustomizationPath] accepts it; and it is a path
    that [os.Stat] finds. *)
Theorem located_config_is_kustomization_path dir path :
  findKustomizationConfig dir = Ok path ->
  IsKustomizationPath path = true
  /\ In (filepath.Base path) kustomizeFilePaths
  /\ exists mode, Stat path = Some mode.
Proof.
  intros H. destruct (located_config_name _ _ H) as (name & Hin & -> & Hlocal).
  pose proof (kustomizeFilePaths_simple _ Hin) as Hsimple.
  rewrite (Base_Join dir name Hsimple).
  split; [|split; [exact Hin|]].
  - unfold IsKustomizationPath. rewrite (Base_Join dir name Hsimple).
    apply nameAmong_In, Hin.
  - destruct Hsimple as (_ & _ & _ & Hsep).
    rewrite (pathExistsLocally_relative _ _ _ (simpleName_relative _ Hsep))
      in Hlocal.
    destruct (Stat (filepath.Join dir name)) as [mode|]; [eauto | discriminate].
Qed.

(** X3. For a directory whose configuration parses and whose candidates
    resolve, the resolver returns exactly this list, in this order: the
    configuration file, what the bases and resources bring, the strategic
    merge patches, the CRDs, the patches, the JSON patches, what the
    config map generators bring, what the secret generators bring. Nothing
    is removed from it: a path named twice is listed twice. *)
Theorem resolved_set_layout fuel dir path buf content found :
  parsedAndResolved fuel dir path buf content found ->
  resolve (S fuel) dir
  = Some (Ok ([path]
              ++ found
              ++ flat_map (strategicMergeDeps dir) (PatchesStrategicMerge content)
              ++ AbsolutePaths dir (CRDs content)
              ++ flat_map (patchDeps dir) (Patches content)
              ++ flat_map (jsonPatchDeps dir) (PatchesJSON6902 content)
              ++ flat_map (generatorDeps dir) (ConfigMapGenerator content)
              ++ flat_map (generatorDeps dir) (SecretGenerator content))).
Proof.
  intros (Hfind & Hread & Hparse & Hunion).
  exact (resolve_returns _ _ _ _ _ _ _ _ _ Hfind Hread Hparse Hunion).
Qed.

(** X4. When the resolver returns a list, the list is empty exactly when
    the directory has no configuration file; otherwise its first element
    is the configuration file the locator found. *)
Theorem resolved_set_starts_with_config fuel dir deps :
  resolve fuel dir = Some (Ok deps) ->
  (deps = [] <-> exists err, findKustomizationConfig dir = Fail err)
  /\ (forall path,
         findKustomizationConfig dir = Ok path ->
         exists rest, deps = path :: rest).
Proof.
  destruct fuel as [|fuel]; [discriminate|].
  rewrite resolve_S.
  destruct (findKustomizationConfig dir) as [path|e] eqn:Hfind.
  - destruct (ReadFile path) as [buf|e]; [|discriminate].
    destruct (Unmarshal buf) as [content|e]; [|discriminate].
    rewrite candidatesLoop_union.
    destruct (unionOfCandidates _ _ _) as [[found|e]|]; try discriminate.
    intros H. apply restOfKustomization_appends in H. subst deps.
    split.
    + split; [discriminate | intros (err & H); discriminate].
    + intros path' [= <-]. eexists. reflexivity.
  - intros [= <-]. split.
    + split; [eauto | reflexivity].
    + discriminate.
Qed.

End LocatorProperties.

(** ** Cycles and the end of the walk *)

Section WalkProperties.

Variable Stat : string -> option os.FileMode.
Variable ReadFile : string -> result string.
Variable ParseYAML : string -> result yamlDocument.

Local Abbreviation pathExistsLocally := (pathExistsLocally Stat).
Local Abbreviation candidatesLoop := (candidatesLoop Stat).
Local Abbreviation resolve := (dependenciesForKustomization Stat ReadFile ParseYAML).
Local Abbreviation directoryCandidate := (directoryCandidate Stat ReadFile ParseYAML).

Lemma candidatesLoop_blocked recurse dir candidates deps candidate mode :
  In candidate candidates ->
  pathExistsLocally candidate dir = (true, mode) ->
  os.IsDir mode = true ->
  (forall d, recurse (filepath.Join dir candidate) <> Some (Ok d)) ->
  forall d, candidatesLoop recurse dir candidates deps <> Some (Ok d).
Proof.
  intros Hin Hlocal Hdir Hblocked. revert deps.
  induction candidates as [|c rest IH]; intros deps d; [destruct Hin|].
  rewrite candidatesLoop_cons.
  destruct Hin as [->|Hin].
  - rewrite Hlocal. cbn [negb]. rewrite Hdir.
    destruct (recurse (filepath.Join dir candidate)) as [[found|e]|] eqn:Hrec;
      try discriminate.
    exfalso. exact (Hblocked _ eq_refl).
  - destruct (pathExistsLocally c dir) as [[|] m]; cbn [negb];
      [|exact (IH Hin _ _)].
    destruct (os.IsDir m); [|exact (IH Hin _ _)].
    destruct (recurse (filepath.Join dir c)) as [[found|e]|];
      [exact (IH Hin _ _) | discriminate | discriminate].
Qed.

Lemma candidatesLoop_returns recurse dir candidates deps :
  (forall c mode,
      In c candidates ->
      pathExistsLocally c dir = (true, mode) ->
      os.IsDir mode = true ->
      recurse (filepath.Join dir c) <> None) ->
  candidatesLoop recurse dir candidates deps <> None.
Proof.
  revert deps. induction candidates as [|c rest IH]; intros deps Hrec;
    [discriminate|].
  rewrite candidatesLoop_cons.
  assert (Hrest : forall deps', candidatesLoop recurse dir rest deps' <> None).
  { intros deps'. apply IH. intros c' mode Hin. apply Hrec. right. exact Hin. }
  destruct (pathExistsLocally c dir) as [[|] m] eqn:Hlocal; cbn [negb];
    [|apply Hrest].
  destruct (os.IsDir m) eqn:Hdir; [|apply Hrest].
  pose proof (Hrec c m (or_introl eq_refl) Hlocal Hdir) as Hc.
  destruct (recurse (filepath.Join dir c)) as [[found|e]|];
    [apply Hrest | discriminate | congruence].
Qed.

(** X5. Directories that name each other never resolve to a set: when
    every directory of a set has, among its bases and resources, a local
    directory that joins to a directory of the set again (a directory that
    names itself, or two that name each other), the resolver returns no
    list for any of them, however long it runs: it does not return, or it
    returns an error. *)
Theorem cyclic_references_never_resolve (cyclic : string -> Prop) :
  (forall d, cyclic d ->
     exists c, directoryCandidate d c /\ cyclic (filepath.Join d c)) ->
  forall fuel dir,
    cyclic dir ->
    resolve fuel dir = None \/ exists err, resolve fuel dir = Some (Fail err).
Proof.
  intros Hcycle fuel.
  induction fuel as [|fuel IH]; intros dir Hdir; [left; reflexivity|].
  destruct (Hcycle dir Hdir)
    as (c & (path & buf & content & mode & Hfind & Hread & Hparse & Hin
             & Hlocal & Hmode) & Hnext).
  rewrite (resolve_parsed _ _ _ _ _ _ _ _ Hfind Hread Hparse).
  destruct (candidatesLoop (resolve fuel) dir _ [path]) as [[deps|e]|] eqn:Hloop;
    [|right; eauto | left; reflexivity].
  exfalso. refine (candidatesLoop_blocked _ _ _ _ _ _ Hin Hlocal Hmode _ _ Hloop).
  intros d Hd. destruct (IH _ Hnext) as [H|(err & H)]; congruence.
Qed.

(** X6. Directories that do not name each other resolve: when a number
    can be given to every directory of a set closed under the walk so that
    each local directory among the bases and resources of a directory has
    a smaller number than the directory, the resolver returns for every
    directory of the set, with any fuel above its number, and what it
    returns does not depend on the fuel. *)
Theorem acyclic_references_resolve
    (visited : string -> Prop) (rank : string -> nat) :
  (forall d c,
      visited d -> directoryCandidate d c ->
      visited (filepath.Join d c) /\ rank (filepath.Join d c) < rank d) ->
  forall dir,
    visited dir ->
    exists r, forall fuel, rank dir < fuel -> resolve fuel dir = Some r.
Proof.
  intros Hwalk.
  assert (Hreturns : forall fuel dir,
             visited dir -> rank dir < fuel -> resolve fuel dir <> None).
  { induction fuel as [|fuel IH]; intros dir Hdir Hrank; [lia|].
    rewrite resolve_S.
    destruct (findKustomizationConfig Stat dir) as [path|e] eqn:Hfind;
      [|discriminate].
    destruct (ReadFile path) as [buf|e] eqn:Hread; [|discriminate].
    destruct (Unmarshal ParseYAML buf) as [content|e] eqn:Hparse;
      [|discriminate].
    assert (Hloop : candidatesLoop (resolve fuel) dir
                      (Bases content ++ Resources content) [path] <> None).
    { apply candidatesLoop_returns. intros c mode Hin Hlocal Hmode.
      destruct (Hwalk dir c Hdir) as [Hnext Hless].
      { exists path, buf, content, mode. repeat split; assumption. }
      apply IH; [exact Hnext | lia]. }
    destruct (candidatesLoop _ _ _ _) as [[deps|e]|];
      [|discriminate | congruence].
    rewrite (restOfKustomization_returns _ _ _
               (Unmarshal_patches_set _ _ _ Hparse)).
    discriminate. }
  intros dir Hdir.
  destruct (resolve (S (rank dir)) dir) as [r|] eqn:Hr.
  - exists r. intros fuel Hfuel.
    apply (resolve_fuel_monotone _ _ _ (S (rank dir))); [lia | exact Hr].
  - exfalso. apply (Hreturns (S (rank dir)) dir Hdir); [lia | exact Hr].
Qed.

End WalkProperties.

(** X5 on the tree with cycles. *)
Lemma cyclic_references_never_resolve_witness :
  (SampleCycle.resolve 7 "loop" = None
   \/ exists err, SampleCycle.resolve 7 "loop" = Some (Fail err))
  /\ (SampleCycle.resolve 7 "a" = None
      \/ exists err, SampleCycle.resolve 7 "a" = Some (Fail err)).
Proof.
  assert (Hcandidate : forall dir candidate,
             In (dir, candidate) [("loop", "."); ("a", "../b"); ("b", "../a")] ->
             directoryCandidate SampleCycle.Stat SampleCycle.ReadFile
               SampleCycle.ParseYAML dir candidate).
  { intros dir candidate [[= <- <-]|[[= <- <-]|[[= <- <-]|[]]]];
      do 4 eexists; repeat split; try reflexivity; left; reflexivity. }
  pose proof (cyclic_references_never_resolve
                SampleCycle.Stat SampleCycle.ReadFile SampleCycle.ParseYAML
                (fun d => In d ["loop"; "a"; "b"])) as Hnever.
  split; apply Hnever; try in_list.
  all: intros d [<-|[<-|[<-|[]]]];
    [exists "." | exists "../b" | exists "../a"];
    (split; [apply Hcandidate; in_list | in_list]).
Defined.

(** X6 on the sample tree: from [parent] the walk goes at most two
    directories deep. *)
Lemma acyclic_references_resolve_witness :
  exists r, forall fuel, 2 < fuel -> Sample.resolve fuel "parent" = Some r.
Proof.
  refine (acyclic_references_resolve
            Sample.Stat Sample.ReadFile Sample.ParseYAML
            sampleVisited sampleRank _ "parent" _).
  - intros d c Hvisited
      (path & buf & content & mode & Hfind & Hread & Hparse & Hin & Hlocal & Hmode).
    destruct Hvisited as [<-|[<-|[<-|[<-|[<-|[]]]]]];
      vm_compute in Hfind; try discriminate;
      injection Hfind as <-; vm_compute in Hread; injection Hread as <-;
      vm_compute in Hparse; try discriminate; injection Hparse as <-;
      cbn in Hin;
      repeat (destruct Hin as [<-|Hin]);
      try contradiction;
      vm_compute in Hlocal; try discriminate; injection Hlocal as <-;
      vm_compute in Hmode; try discriminate;
      (split; [vm_compute; in_list | vm_compute; lia]).
  - left. reflexivity.
Defined.

(** ** A [patches] entry that does not decode *)

Lemma decodePatches_fails nodes node err :
  In node nodes ->
  snd (patchWrapper_UnmarshalYAML (mkPatchWrapper None) node) = Some err ->
  exists err', decodePatches nodes = Fail err'.
Proof.
  intros Hin Hnode. induction nodes as [|u rest IH]; [destruct Hin|]. simpl.
  destruct (patchWrapper_UnmarshalYAML _ u) as [p [e|]] eqn:Hu; [eauto|].
  destruct Hin as [->|Hin].
  - rewrite Hu in Hnode. discriminate.
  - destruct (IH Hin) as (err' & ->). eauto.
Qed.

(** X7. When a [patches] entry decodes neither as a mapping nor as a
    string, its hook leaves the entry as it was and returns the error of
    the attempt to decode it as a string, not the error of the attempt to
    decode it as a mapping; and the resolution of a directory whose
    configuration holds such an entry fails, whatever else the
    configuration holds. *)
Theorem undecodable_patch_fails_resolution
    Stat ReadFile ParseYAML fuel dir path buf doc node pp e1 s e2 :
  intoPatchPath node (mkPatchPath "" "") = (pp, Some e1) ->
  intoString node "" = (s, Some e2) ->
  (forall p, patchWrapper_UnmarshalYAML p node = (p, Some e2))
  /\ (findKustomizationConfig Stat dir = Ok path ->
      ReadFile path = Ok buf ->
      ParseYAML buf = Ok doc ->
      In node (docPatches doc) ->
      exists err,
        dependenciesForKustomization Stat ReadFile ParseYAML (S fuel) dir
        = Some (Fail err)).
Proof.
  intros Hmapping Hstring.
  assert (Hhook : forall p, patchWrapper_UnmarshalYAML p node = (p, Some e2)).
  { intros p. unfold patchWrapper_UnmarshalYAML.
    rewrite Hmapping, Hstring. reflexivity. }
  split; [exact Hhook|].
  intros Hfind Hread Hdoc Hin.
  destruct (decodePatches_fails _ _ e2 Hin) as (err & Hdecode).
  { rewrite Hhook. reflexivity. }
  exists err. simpl. rewrite Hfind, Hread, (Unmarshal_parsed _ _ _ Hdoc).
  unfold decodeDocument. rewrite Hdecode. reflexivity.
Qed.

(** X7 on the sample tree. *)
Lemma undecodable_patch_fails_resolution_witness :
  patchWrapper_UnmarshalYAML (mkPatchWrapper None) sequencePatchNode
  = (mkPatchWrapper None,
     Some (ErrorString "cannot unmarshal !!seq into string"))
  /\ exists err, SampleBadPatch.resolve 1 "overlay" = Some (Fail err).
Proof.
  destruct (undecodable_patch_fails_resolution
              Sample.Stat Sample.ReadFile SampleBadPatch.ParseYAML 0 "overlay"
              "overlay/kustomization.yaml" "overlay/kustomization.yaml"
              SampleBadPatch.overlayDoc sequencePatchNode
              (mkPatchPath "" "")
              (ErrorString "cannot unmarshal !!seq into deploy.patchPath") ""
              (ErrorString "cannot unmarshal !!seq into string")
              eq_refl eq_refl)
    as (Hhook & Hfails).
  split; [apply Hhook|].
  apply Hfails; try reflexivity. right. left. reflexivity.
Defined.

(** ** The arguments of the kustomize command *)

Lemma Split_rejoin sep s :
  strings.Join (strings.Split sep s) (String sep "") = s.
Proof.
  induction s as [|c s IH]; [reflexivity|]. simpl.
  destruct (Ascii.eqb_spec c sep) as [->|Hne].
  - pose proof (Split_nonempty sep s) as Hnonempty.
    cbn [strings.Join]. destruct (strings.Split sep s) as [|h t]; [congruence|].
    rewrite IH. reflexivity.
  - pose proof (Split_nonempty sep s) as Hnonempty.
    destruct (strings.Split sep s) as [|h t]; [congruence|].
    rewrite <- IH. destruct t; reflexivity.
Qed.

Lemma Split_length sep s :
  length (strings.Split sep s) = S (occurrences sep s).
Proof.
  induction s as [|c s IH]; [reflexivity|]. simpl.
  destruct (Ascii.eqb c sep); simpl; [rewrite IH; reflexivity|].
  pose proof (Split_nonempty sep s) as Hnonempty.
  destruct (strings.Split sep s) as [|h t]; [congruence | exact IH].
Qed.

Lemma Split_parts sep s :
  Forall (fun part => occurrences sep part = 0) (strings.Split sep s).
Proof.
  induction s as [|c s IH]; simpl; [repeat constructor|].
  destruct (Ascii.eqb c sep) eqn:Hc; [constructor; [reflexivity | exact IH]|].
  destruct (strings.Split sep s) as [|h t]; [repeat constructor; simpl; rewrite Hc; reflexivity|].
  inversion IH; subst. constructor; [|assumption].
  simpl. rewrite Hc. assumption.
Qed.

Lemma fold_left_split_appends buildArgs args :
  fold_left (fun args v => args ++ strings.Split " " v) buildArgs args
  = args ++ flat_map (strings.Split " ") buildArgs.
Proof.
  revert args. induction buildArgs as [|v rest IH]; intros args; simpl.
  - rewrite app_nil_r. reflexivity.
  - rewrite IH, <- app_assoc. reflexivity.
Qed.

(** X8. The arguments of the kustomize command are [build], then the
    build flags each split at its spaces, then the path when it is not
    empty. A flag with [n] spaces gives [n + 1] arguments, none of which
    holds a space (two spaces in a row, or a space at an end, give an
    empty argument), and the arguments of a flag joined with single
    spaces are the flag again. *)
Theorem buildCommandArgs_layout (buildArgs : list string) (kustomizePath : string) :
  buildCommandArgs buildArgs kustomizePath
  = ["build"]
    ++ flat_map (strings.Split " ") buildArgs
    ++ (if kustomizePath =? "" then [] else [kustomizePath])
  /\ forall v,
      length (strings.Split " " v) = S (occurrences " " v)
      /\ Forall (fun part => occurrences " " part = 0) (strings.Split " " v)
      /\ strings.Join (strings.Split " " v) " " = v.
Proof.
  split.
  - unfold buildCommandArgs.
    assert (Hflags :
              (if (0 <? length buildArgs)%nat
               then fold_left (fun args v => args ++ strings.Split " " v)
                      buildArgs ([] ++ ["build"])
               else [] ++ ["build"])
              = ["build"] ++ flat_map (strings.Split " ") buildArgs).
    { destruct buildArgs as [|v rest]; [reflexivity|].
      cbn [length Nat.ltb Nat.leb]. apply fold_left_split_appends. }
    rewrite Hflags.
    destruct kustomizePath; simpl; rewrite ?app_nil_r, <- ?app_assoc; reflexivity.
  - intros v. split; [apply Split_length | split; [apply Split_parts|]].
    apply Split_rejoin.
Qed.

(** ** Rendering, step by step *)

Section RenderProperties.

Variables Artifact Labels InsecureRegistries DebugHelpersRegistry : Type.
Variable GetDebugHelpersRegistry : string -> result DebugHelpersRegistry.
Variable RunCmdOut : string -> list string -> result string.
Variable Append : ManifestList -> string -> ManifestList.
Variable ReplaceImages : ManifestList -> list Artifact -> result ManifestList.
Variable manifestTransforms :
  list (ManifestList -> list Artifact ->
        Registries InsecureRegistries DebugHelpersRegistry ->
        result ManifestList).
Variable SetLabels : ManifestList -> Labels -> result ManifestList.

Implicit Types k : KustomizeDeployer Labels InsecureRegistries.

Local Abbreviation prints := (prints RunCmdOut).
Local Abbreviation readManifestsLoop := (readManifestsLoop RunCmdOut Append).
Local Abbreviation readManifests := (readManifests RunCmdOut Append).
Local Abbreviation renderManifests CheckVersion :=
  (renderManifests CheckVersion GetDebugHelpersRegistry RunCmdOut Append
     ReplaceImages manifestTransforms SetLabels).

Lemma readManifestsLoop_first_failure k before path after outs err manifests :
  Forall2 (prints k) before outs ->
  RunCmdOut "kustomize" (buildCommandArgs (BuildArgs k) path) = Fail err ->
  readManifestsLoop k (before ++ path :: after) manifests
  = (map (kustomizeBuildCall k) (before ++ [path]),
     Fail (Errorf "kustomize build: " err)).
Proof.
  intros Houts Hpath. revert manifests.
  induction Houts as [|p out before outs Hout _ IH]; intros manifests; simpl.
  - rewrite Hpath. reflexivity.
  - red in Hout. rewrite Hout.
    destruct (String.length out =? 0)%nat; rewrite IH; reflexivity.
Qed.

(** X9. Reading the manifests stops at the first configured path for
    which the kustomize command fails: the command is run for the paths
    before it and for that path, never for the paths after it, and the
    error is the error of the command under the prefix
    [kustomize build: ]; what the paths before it printed is dropped. *)
Theorem readManifests_stops_at_first_failure k before path after outs err :
  KustomizePaths k = before ++ path :: after ->
  Forall2 (prints k) before outs ->
  RunCmdOut "kustomize" (buildCommandArgs (BuildArgs k) path) = Fail err ->
  readManifests k
  = (map (kustomizeBuildCall k) (before ++ [path]),
     Fail (Errorf "kustomize build: " err)).
Proof.
  intros Hpaths Houts Hpath. unfold readManifests. rewrite Hpaths.
  exact (readManifestsLoop_first_failure _ _ _ _ _ _ _ Houts Hpath).
Qed.

Lemma transformsLoop_result
    (transforms :
       list (ManifestList -> list Artifact ->
             Registries InsecureRegistries DebugHelpersRegistry ->
             result ManifestList))
    index manifests builds registries :
  transformsLoop transforms index manifests builds registries
  = (transformCalls transforms index manifests builds registries,
     applyTransforms transforms manifests builds registries).
Proof.
  revert index manifests.
  induction transforms as [|transform rest IH]; intros index manifests; simpl.
  - reflexivity.
  - destruct (transform manifests builds registries) as [m|err];
      [rewrite IH|]; reflexivity.
Qed.

(** Rendering as one expression: its calls and its result. *)
Lemma renderManifests_steps CheckVersion k builds :
  renderManifests CheckVersion k builds
  = let prologue := renderPrologue CheckVersion (globalConfig k) in
    match GetDebugHelpersRegistry (globalConfig k) with
    | Fail err =>
        (prologue, Fail (Errorf "retrieving debug helpers registry: " err))
    | Ok registry =>
        let read := readManifests k in
        match snd read with
        | Fail err =>
            (prologue ++ fst read, Fail (Errorf "reading manifests: " err))
        | Ok manifests =>
            if (length manifests =? 0)%nat
            then (prologue ++ fst read, Ok [])
            else
              match ReplaceImages manifests builds with
              | Fail err =>
                  (prologue ++ fst read ++ [ReplaceImagesCall manifests],
                   Fail (Errorf "replacing images in manifests: " err))
              | Ok replaced =>
                  let registries := (insecureRegistries k, registry) in
                  let calls :=
                    prologue ++ fst read ++ [ReplaceImagesCall manifests]
                    ++ transformCalls manifestTransforms 0 replaced builds
                         registries in
                  match applyTransforms manifestTransforms replaced builds
                          registries with
                  | Fail err => (calls, Fail err)
                  | Ok transformed =>
                      (calls ++ [SetLabelsCall transformed],
                       SetLabels transformed (labels k))
                  end
              end
        end
    end.
Proof.
  unfold renderManifests, renderPrologue.
  destruct CheckVersion as [versionErr|].
  all: rewrite !bind_result; cbn [fst snd call ret app].
  all: destruct (GetDebugHelpersRegistry (globalConfig k)) as [registry|err];
    [|reflexivity].
  all: rewrite ?bind_result; cbn [fst snd app].
  all: destruct (snd (readManifests k)) as [manifests|err];
    [|cbn [fst snd ret app]; rewrite ?app_nil_r; reflexivity].
  all: destruct (length manifests =? 0)%nat;
    [cbn [fst snd ret app]; rewrite ?app_nil_r; reflexivity|].
  all: rewrite ?bind_result; cbn [fst snd call app].
  all: destruct (ReplaceImages manifests builds) as [replaced|err];
    [|cbn [fst snd ret app]; rewrite ?app_nil_r; reflexivity].
  all: rewrite ?bind_result, transformsLoop_result; cbn [fst snd].
  all: destruct (applyTransforms _ _ _ _) as [transformed|err];
    cbn [fst snd ret call app]; rewrite ?app_nil_r, <- ?app_assoc;
    reflexivity.
Qed.

(** X10. A failed version check does not change what rendering returns:
    it only adds, right after the check, the call for the version and the
    two printed lines. *)
Theorem version_check_is_not_fatal versionErr k builds :
  snd (renderManifests (Some versionErr) k builds)
  = snd (renderManifests None k builds)
  /\ exists calls,
      fst (renderManifests None k builds) = CheckVersionCall :: calls
      /\ fst (renderManifests (Some versionErr) k builds)
         = CheckVersionCall :: VersionCall :: Fprintln :: Fprintln :: calls.
Proof.
  rewrite !renderManifests_steps. unfold renderPrologue. cbn zeta.
  destruct (GetDebugHelpersRegistry (globalConfig k)) as [registry|err];
    [|split; [reflexivity | eexists; split; reflexivity]].
  destruct (snd (readManifests k)) as [manifests|err];
    [|split; [reflexivity | eexists; split; reflexivity]].
  destruct (length manifests =? 0)%nat;
    [split; [reflexivity | eexists; split; reflexivity]|].
  destruct (ReplaceImages manifests builds) as [replaced|err];
    [|split; [reflexivity | eexists; split; reflexivity]].
  destruct (applyTransforms _ _ _ _) as [transformed|err];
    split; try reflexivity; eexists; split; reflexivity.
Qed.

(** X11. When the debug helpers registry cannot be retrieved, rendering
    fails with that error under the prefix
    [retrieving debug helpers registry: ], and the kustomize command is
    not run. *)
Theorem registry_failure_stops_rendering CheckVersion k builds err :
  GetDebugHelpersRegistry (globalConfig k) = Fail err ->
  snd (renderManifests CheckVersion k builds)
  = Fail (Errorf "retrieving debug helpers registry: " err)
  /\ Forall (fun ev => isRunCmdOut ev = false)
       (fst (renderManifests CheckVersion k builds)).
Proof.
  intros Hregistry. rewrite renderManifests_steps. cbn zeta.
  rewrite Hregistry. split; [reflexivity|].
  unfold renderPrologue. destruct CheckVersion; repeat constructor.
Qed.

(** X12. With manifests read, what rendering returns is the label
    injection applied to the result of the transforms, each applied in
    turn to the result of the image replacement: the error of the image
    replacement comes back under the prefix
    [replacing images in manifests: ], the error of a transform under the
    prefix [unable to transform manifests: ], and the result of the label
    injection as it is. *)
Theorem rendering_composes_the_steps CheckVersion k builds registry manifests :
  GetDebugHelpersRegistry (globalConfig k) = Ok registry ->
  snd (readManifests k) = Ok manifests ->
  length manifests <> 0 ->
  snd (renderManifests CheckVersion k builds)
  = match ReplaceImages manifests builds with
    | Fail err => Fail (Errorf "replacing images in manifests: " err)
    | Ok replaced =>
        match applyTransforms manifestTransforms replaced builds
                (insecureRegistries k, registry) with
        | Fail err => Fail err
        | Ok transformed => SetLabels transformed (labels k)
        end
    end.
Proof.
  intros Hregistry Hread Hlen. rewrite renderManifests_steps. cbn zeta.
  rewrite Hregistry, Hread. apply Nat.eqb_neq in Hlen. rewrite Hlen.
  destruct (ReplaceImages manifests builds) as [replaced|err]; [|reflexivity].
  destruct (applyTransforms _ _ _ _) as [transformed|err]; reflexivity.
Qed.

Lemma transformCalls_no_labels
    (transforms :
       list (ManifestList -> list Artifact ->
             Registries InsecureRegistries DebugHelpersRegistry ->
             result ManifestList))
    index manifests builds registries :
  Forall (fun ev => forall m, ev <> SetLabelsCall m)
         (transformCalls transforms index manifests builds registries).
Proof.
  revert index manifests.
  induction transforms as [|transform rest IH]; intros index manifests; simpl.
  - constructor.
  - constructor; [discriminate|].
    destruct (transform manifests builds registries); [apply IH | constructor].
Qed.

Lemma readManifests_no_labels k :
  Forall (fun ev => forall m, ev <> SetLabelsCall m) (fst (readManifests k)).
Proof.
  eapply Forall_impl; [apply readManifestsLoop_log|].
  intros ev [_ H] m ->. discriminate.
Qed.

Lemma renderPrologue_no_labels CheckVersion globalConfig :
  Forall (fun ev => forall m, ev <> SetLabelsCall m)
         (renderPrologue CheckVersion globalConfig).
Proof.
  unfold renderPrologue. destruct CheckVersion; repeat constructor; discriminate.
Qed.

(** X13. Rendering calls the label injection only as its last call, and
    only on what the whole chain gave: the manifests were read and are not
    empty, the image replacement succeeded, and every transform
    succeeded. *)
Theorem labels_are_injected_last CheckVersion k builds labelled :
  In (SetLabelsCall labelled) (fst (renderManifests CheckVersion k builds)) ->
  exists registry manifests replaced calls,
    GetDebugHelpersRegistry (globalConfig k) = Ok registry
    /\ snd (readManifests k) = Ok manifests
    /\ length manifests <> 0
    /\ ReplaceImages manifests builds = Ok replaced
    /\ applyTransforms manifestTransforms replaced builds
         (insecureRegistries k, registry) = Ok labelled
    /\ fst (renderManifests CheckVersion k builds)
       = calls ++ [SetLabelsCall labelled]
    /\ Forall (fun ev => forall m, ev <> SetLabelsCall m) calls.
Proof.
  rewrite renderManifests_steps. cbn zeta.
  pose proof (renderPrologue_no_labels CheckVersion (globalConfig k)) as Hpro.
  pose proof (readManifests_no_labels k) as Hread.
  assert (Hnot : forall calls,
             Forall (fun ev => forall m, ev <> SetLabelsCall m) calls ->
             ~ In (SetLabelsCall labelled) calls).
  { intros calls Hcalls Hin. rewrite List.Forall_forall in Hcalls.
    exact (Hcalls _ Hin labelled eq_refl). }
  destruct (GetDebugHelpersRegistry (globalConfig k)) as [registry|err].
  2: { intros Hin. exfalso. exact (Hnot _ Hpro Hin). }
  destruct (snd (readManifests k)) as [manifests|err] eqn:Hmanifests.
  2: { intros Hin. exfalso. refine (Hnot _ _ Hin). apply Forall_app; auto. }
  destruct (length manifests =? 0)%nat eqn:Hlen.
  { intros Hin. exfalso. refine (Hnot _ _ Hin). apply Forall_app; auto. }
  assert (Hreplace : Forall (fun ev => forall m, ev <> SetLabelsCall m)
                       [ReplaceImagesCall manifests]).
  { repeat constructor. discriminate. }
  destruct (ReplaceImages manifests builds) as [replaced|err] eqn:Hreplaced.
  2: { intros Hin. exfalso. refine (Hnot _ _ Hin).
       repeat (apply Forall_app; split); auto. }
  pose proof (transformCalls_no_labels manifestTransforms 0 replaced builds
                (insecureRegistries k, registry)) as Htransforms.
  assert (Hcalls : Forall (fun ev => forall m, ev <> SetLabelsCall m)
                     (renderPrologue CheckVersion (globalConfig k)
                      ++ fst (readManifests k) ++ [ReplaceImagesCall manifests]
                      ++ transformCalls manifestTransforms 0 replaced builds
                           (insecureRegistries k, registry))).
  { repeat (apply Forall_app; split); auto. }
  destruct (applyTransforms _ _ _ _) as [transformed|err] eqn:Hchain.
  2: { intros Hin. exfalso. exact (Hnot _ Hcalls Hin). }
  cbn [fst]. intros Hin. apply in_app_or in Hin as [Hin|[Hin|[]]].
  { exfalso. exact (Hnot _ Hcalls Hin). }
  injection Hin as ->.
  exists registry, manifests, replaced. eexists.
  repeat split; try reflexivity; try assumption.
  apply Nat.eqb_neq. exact Hlen.
Qed.

(** X14. The transforms stop at the first that fails: the transforms
    before it are called in order, each on the result of the one before,
    then the failing one, and none after it; the error is the error of
    the failing transform under the prefix
    [unable to transform manifests: ]. *)
Theorem transforms_stop_at_first_failure
    (before after :
       list (ManifestList -> list Artifact ->
             Registries InsecureRegistries DebugHelpersRegistry ->
             result ManifestList))
    failing index manifests builds registries reached err :
  applyTransforms before manifests builds registries = Ok reached ->
  failing reached builds registries = Fail err ->
  transformsLoop (before ++ failing :: after) index manifests builds registries
  = (transformCalls before index manifests builds registries
       ++ [TransformCall (index + length before) reached],
     Fail (Errorf "unable to transform manifests: " err)).
Proof.
  intros Hbefore Hfailing. revert index manifests Hbefore.
  induction before as [|transform before IH]; intros index manifests Hbefore.
  - simpl in *. injection Hbefore as ->. rewrite Hfailing.
    rewrite Nat.add_0_r. reflexivity.
  - simpl in *.
    destruct (transform manifests builds registries) as [m|e]; [|discriminate].
    rewrite (IH (S index) m Hbefore).
    replace (S index + length before) with (index + S (length before)) by lia.
    reflexivity.
Qed.

End RenderProperties.

(** ** Deploy, Cleanup and Render, step by step *)

Section DeployProperties.

Variables Artifact Labels InsecureRegistries DebugHelpersRegistry : Type.
Variable CheckVersion : option error.
Variable GetDebugHelpersRegistry : string -> result DebugHelpersRegistry.
Variable RunCmdOut : string -> list string -> result string.
Variable Append : ManifestList -> string -> ManifestList.
Variable ReplaceImages : ManifestList -> list Artifact -> result ManifestList.
Variable manifestTransforms :
  list (ManifestList -> list Artifact ->
        Registries InsecureRegistries DebugHelpersRegistry ->
        result ManifestList).
Variable SetLabels : ManifestList -> Labels -> result ManifestList.
Variable CollectNamespaces : ManifestList -> list string * option error.
Variable Apply : ManifestList -> option error.
Variable Delete : ManifestList -> option error.
Variable ManifestsString : ManifestList -> string.
Variable outputRenderedManifests : string -> string -> option error.

Implicit Types k : KustomizeDeployer Labels InsecureRegistries.

Local Abbreviation readManifests := (readManifests RunCmdOut Append).
Local Abbreviation renderManifests :=
  (renderManifests CheckVersion GetDebugHelpersRegistry RunCmdOut Append
     ReplaceImages manifestTransforms SetLabels).
Local Abbreviation Deploy :=
  (Deploy CheckVersion GetDebugHelpersRegistry RunCmdOut Append
     ReplaceImages manifestTransforms SetLabels CollectNamespaces Apply).
Local Abbreviation Cleanup := (Cleanup RunCmdOut Append Delete).
Local Abbreviation Render :=
  (Render CheckVersion GetDebugHelpersRegistry RunCmdOut Append
     ReplaceImages manifestTransforms SetLabels ManifestsString
     outputRenderedManifests).

Lemma readManifests_calls k :
  Forall (fun ev => isRunCmdOut ev = true) (fst (readManifests k)).
Proof.
  unfold readManifests. generalize (@nil string) as manifests.
  induction (KustomizePaths k) as [|path rest IH]; intros manifests.
  - constructor.
  - simpl. rewrite log_cons. constructor; [reflexivity|].
    destruct (RunCmdOut _ _) as [out|err]; [|constructor].
    destruct (String.length out =? 0)%nat; apply IH.
Qed.

Lemma transformCalls_render
    (transforms :
       list (ManifestList -> list Artifact ->
             Registries InsecureRegistries DebugHelpersRegistry ->
             result ManifestList))
    index manifests builds registries :
  Forall (fun ev => isRenderCall ev = true)
         (transformCalls transforms index manifests builds registries).
Proof.
  revert index manifests.
  induction transforms as [|transform rest IH]; intros index manifests; simpl.
  - constructor.
  - constructor; [reflexivity|].
    destruct (transform manifests builds registries); [apply IH | constructor].
Qed.

(** Rendering makes no other calls than its own. *)
Lemma renderManifests_calls k builds :
  Forall (fun ev => isRenderCall ev = true) (fst (renderManifests k builds)).
Proof.
  rewrite renderManifests_steps. cbn zeta.
  assert (Hpro : Forall (fun ev => isRenderCall ev = true)
                   (renderPrologue CheckVersion (globalConfig k))).
  { unfold renderPrologue. destruct CheckVersion; repeat constructor. }
  assert (Hread : Forall (fun ev => isRenderCall ev = true)
                    (fst (readManifests k))).
  { eapply Forall_impl; [apply readManifests_calls|].
    intros [] H; try discriminate H. reflexivity. }
  destruct (GetDebugHelpersRegistry (globalConfig k)) as [registry|err];
    [|exact Hpro].
  destruct (snd (readManifests k)) as [manifests|err];
    [|apply Forall_app; auto].
  destruct (length manifests =? 0)%nat; [apply Forall_app; auto|].
  destruct (ReplaceImages manifests builds) as [replaced|err].
  2: { repeat (apply Forall_app; split); auto; repeat constructor. }
  pose proof (transformCalls_render manifestTransforms 0 replaced builds
                (insecureRegistries k, registry)) as Htransforms.
  destruct (applyTransforms _ _ _ _) as [transformed|err]; cbn [fst];
    repeat (apply Forall_app; split); auto; repeat constructor.
Qed.

(** Deploying as one expression: its calls and its result. *)
Lemma Deploy_steps k builds :
  Deploy k builds
  = let render := renderManifests k builds in
    match snd render with
    | Fail err =>
        (DeployInProgress :: fst render ++ [DeployFailed err],
         NewDeployErrorResult err)
    | Ok manifests =>
        if (length manifests =? 0)%nat
        then (DeployInProgress :: fst render ++ [DeployComplete],
              NewDeploySuccessResult [])
        else
          (DeployInProgress
             :: fst render
             ++ [CollectNamespacesCall manifests]
             ++ match snd (CollectNamespaces manifests) with
                | Some err =>
                    [DeployInfoEvent
                       (Errorf ("could not fetch deployed resource namespace. "
                                +:+ "This might cause port-forward and deploy health-check to fail: ")
                          err)]
                | None => []
                end
             ++ [ApplyCall manifests]
             ++ [match Apply manifests with
                 | Some err => DeployFailed err
                 | None => DeployComplete
                 end],
           match Apply manifests with
           | Some err => NewDeployErrorResult err
           | None => NewDeploySuccessResult (fst (CollectNamespaces manifests))
           end)
    end.
Proof.
  unfold Deploy. rewrite !bind_result. cbn [fst snd call ret app]. cbn zeta.
  destruct (snd (renderManifests k builds)) as [manifests|err].
  2: { rewrite ?bind_result. cbn [fst snd call ret app]. reflexivity. }
  destruct (length manifests =? 0)%nat.
  { rewrite ?bind_result. cbn [fst snd call ret app]. reflexivity. }
  rewrite ?bind_result. cbn [fst snd call ret app].
  destruct (CollectNamespaces manifests) as [namespaces [collectErr|]];
    rewrite ?bind_result; cbn [fst snd call ret app];
    destruct (Apply manifests); rewrite ?bind_result;
    cbn [fst snd call ret app]; reflexivity.
Qed.

(** X15. The result of [Deploy] is decided by rendering and by apply:
    the error of rendering; success with no namespace when there is no
    manifest; the error of apply, as it is, when apply fails; and
    otherwise success with the namespaces that the collection returned,
    whether the collection failed or not. *)
Theorem Deploy_result k builds :
  snd (Deploy k builds)
  = match snd (renderManifests k builds) with
    | Fail err => NewDeployErrorResult err
    | Ok manifests =>
        if (length manifests =? 0)%nat then NewDeploySuccessResult []
        else
          match Apply manifests with
          | Some err => NewDeployErrorResult err
          | None => NewDeploySuccessResult (fst (CollectNamespaces manifests))
          end
    end.
Proof.
  rewrite Deploy_steps. cbn zeta.
  destruct (snd (renderManifests k builds)) as [manifests|err]; [|reflexivity].
  destruct (length manifests =? 0)%nat; reflexivity.
Qed.

(** X16. Every deployment reports that it is in progress first and ends
    with exactly one closing event, which agrees with its result:
    [DeployComplete] for a success, [DeployFailed] with the error for a
    failure. *)
Theorem Deploy_reports_one_outcome k builds :
  exists calls closing,
    fst (Deploy k builds) = DeployInProgress :: calls ++ [closing]
    /\ Forall (fun ev => isTerminal ev = false) calls
    /\ closing = match snd (Deploy k builds) with
                 | NewDeploySuccessResult _ => DeployComplete
                 | NewDeployErrorResult err => DeployFailed err
                 end.
Proof.
  rewrite Deploy_steps. cbn zeta.
  assert (Hrender : Forall (fun ev => isTerminal ev = false)
                      (fst (renderManifests k builds))).
  { eapply Forall_impl; [apply renderManifests_calls|].
    intros [] H; try discriminate H; reflexivity. }
  destruct (snd (renderManifests k builds)) as [manifests|err].
  2: { do 2 eexists. cbn [fst snd]. split; [reflexivity | split; [exact Hrender | reflexivity]]. }
  destruct (length manifests =? 0)%nat.
  { do 2 eexists. cbn [fst snd]. split; [reflexivity | split; [exact Hrender | reflexivity]]. }
  cbn [fst snd].
  exists (fst (renderManifests k builds)
          ++ [CollectNamespacesCall manifests]
          ++ match snd (CollectNamespaces manifests) with
             | Some err =>
                 [DeployInfoEvent
                    (Errorf ("could not fetch deployed resource namespace. "
                             +:+ "This might cause port-forward and deploy health-check to fail: ")
                       err)]
             | None => []
             end
          ++ [ApplyCall manifests]).
  eexists. split; [|split].
  - rewrite <- !app_assoc. reflexivity.
  - repeat (apply Forall_app; split); auto; try (repeat constructor).
    destruct (snd (CollectNamespaces manifests)); repeat constructor.
  - destruct (Apply manifests); reflexivity.
Qed.

(** X17. [Deploy] calls apply exactly when rendering gave at least one
    manifest, once, on the rendered manifests. *)
Theorem Deploy_applies_rendered_manifests k builds :
  (forall manifests,
      In (ApplyCall manifests) (fst (Deploy k builds)) <->
      snd (renderManifests k builds) = Ok manifests /\ length manifests <> 0)
  /\ length (List.filter isApply (fst (Deploy k builds))) <= 1.
Proof.
  rewrite Deploy_steps. cbn zeta.
  assert (Hrender : Forall (fun ev => isApply ev = false)
                      (fst (renderManifests k builds))).
  { eapply Forall_impl; [apply renderManifests_calls|].
    intros [] H; try discriminate H; reflexivity. }
  assert (Hfilter : List.filter isApply (fst (renderManifests k builds)) = []).
  { induction Hrender as [|ev l Hev _ IH]; simpl; [reflexivity|].
    rewrite Hev. exact IH. }
  assert (Hnot : forall m, ~ In (ApplyCall m) (fst (renderManifests k builds))).
  { intros m Hin. rewrite List.Forall_forall in Hrender.
    specialize (Hrender _ Hin). discriminate. }
  destruct (snd (renderManifests k builds)) as [manifests|err].
  2: { cbn [fst]. split.
       - intros m. split; [|intros [H _]; discriminate].
         intros [H|H]; [discriminate|].
         apply in_app_or in H as [H|[H|[]]]; [|discriminate].
         exfalso. exact (Hnot _ H).
       - simpl. rewrite List.filter_app, Hfilter. simpl. lia. }
  destruct (length manifests =? 0)%nat eqn:Hlen.
  { cbn [fst]. split.
    - intros m. split.
      + intros [H|H]; [discriminate|].
        apply in_app_or in H as [H|[H|[]]]; [|discriminate].
        exfalso. exact (Hnot _ H).
      + intros [[= <-] Hne]. apply Nat.eqb_eq in Hlen. contradiction.
    - simpl. rewrite List.filter_app, Hfilter. simpl. lia. }
  cbn [fst]. split.
  - intros m. split.
    + intros [H|H]; [discriminate|].
      apply in_app_or in H as [H|H]; [exfalso; exact (Hnot _ H)|].
      apply in_app_or in H as [[H|[]]|H]; [discriminate|].
      apply in_app_or in H as [H|H].
      { destruct (snd (CollectNamespaces manifests)); [|destruct H].
        destruct H as [H|[]]. discriminate. }
      apply in_app_or in H as [[H|[]]|[H|[]]].
      * injection H as <-. split; [reflexivity|].
        apply Nat.eqb_neq. exact Hlen.
      * destruct (Apply manifests); discriminate.
    + intros [[= <-] _]. right. apply in_or_app. right.
      apply in_or_app. right. apply in_or_app. right. left. reflexivity.
  - simpl. rewrite !List.filter_app, Hfilter. simpl.
    destruct (snd (CollectNamespaces manifests)); simpl;
      destruct (Apply manifests); simpl; lia.
Qed.

(** Cleaning up as one expression. *)
Lemma Cleanup_steps k :
  Cleanup k
  = let read := readManifests k in
    match snd read with
    | Fail err => (fst read, Some (Errorf "reading manifests: " err))
    | Ok manifests =>
        (fst read ++ [DeleteCall manifests],
         match Delete manifests with
         | Some err => Some (Errorf "delete: " err)
         | None => None
         end)
    end.
Proof.
  unfold Cleanup. rewrite bind_result. cbn zeta.
  destruct (snd (readManifests k)) as [manifests|err].
  - rewrite bind_result. cbn [fst snd call].
    destruct (Delete manifests); cbn [fst snd ret]; rewrite app_nil_r;
      reflexivity.
  - cbn [fst snd ret]. rewrite app_nil_r. reflexivity.
Qed.

(** X18. [Cleanup] deletes what the kustomize command prints, as it is
    read: when the manifests are read, delete is called once, after the
    reading, on the manifests read, also when there is none, and neither
    the image replacement nor a transform nor the label injection is
    called; the error of delete comes back under the prefix [delete: ].
    When the reading fails, delete is not called and the error comes back
    under the prefix [reading manifests: ]. *)
Theorem Cleanup_deletes_what_is_read k :
  (forall manifests,
      snd (readManifests k) = Ok manifests ->
      Cleanup k
      = (fst (readManifests k) ++ [DeleteCall manifests],
         match Delete manifests with
         | Some err => Some (Errorf "delete: " err)
         | None => None
         end))
  /\ (forall err,
         snd (readManifests k) = Fail err ->
         Cleanup k = (fst (readManifests k),
                      Some (Errorf "reading manifests: " err)))
  /\ Forall (fun ev => isRunCmdOut ev = true) (fst (readManifests k)).
Proof.
  split; [|split].
  - intros manifests Hread. rewrite Cleanup_steps. cbn zeta.
    rewrite Hread. reflexivity.
  - intros err Hread. rewrite Cleanup_steps. cbn zeta.
    rewrite Hread. reflexivity.
  - apply readManifests_calls.
Qed.

(** X19. [Render] writes the rendered manifests once, after rendering,
    when rendering succeeds, and returns what the writing returns; with no
    manifest it still writes, the text of the empty list. When rendering
    fails nothing is written and the error of rendering comes back as it
    is. *)
Theorem Render_writes_what_is_rendered k builds offline filepath :
  (forall manifests,
      snd (renderManifests k builds) = Ok manifests ->
      Render k builds offline filepath
      = (map PipelineEvent (fst (renderManifests k builds))
           ++ [OutputRenderedManifestsCall (ManifestsString manifests) filepath],
         outputRenderedManifests (ManifestsString manifests) filepath))
  /\ (forall registry manifests,
         GetDebugHelpersRegistry (globalConfig k) = Ok registry ->
         snd (readManifests k) = Ok manifests ->
         length manifests = 0 ->
         snd (Render k builds offline filepath)
         = outputRenderedManifests (ManifestsString []) filepath)
  /\ (forall err,
         snd (renderManifests k builds) = Fail err ->
         Render k builds offline filepath
         = (map PipelineEvent (fst (renderManifests k builds)), Some err)).
Proof.
  split; [|split].
  - intros manifests Hrender. unfold Render.
    destruct (renderManifests k builds) as [log m]. simpl in Hrender.
    subst m. reflexivity.
  - intros registry manifests Hregistry Hread Hlen. unfold Render.
    rewrite renderManifests_steps. cbn zeta.
    rewrite Hregistry, Hread, Hlen. reflexivity.
  - intros err Hrender. unfold Render.
    destruct (renderManifests k builds) as [log m]. simpl in Hrender.
    subst m. reflexivity.
Qed.

End DeployProperties.

(** ** The further properties on the samples *)

(** X2 on the sample tree. *)
Lemma located_config_is_kustomization_path_witness :
  IsKustomizationPath "overlay/kustomization.yaml" = true
  /\ In (filepath.Base "overlay/kustomization.yaml") kustomizeFilePaths
  /\ exists mode, Sample.Stat "overlay/kustomization.yaml" = Some mode.
Proof.
  exact (located_config_is_kustomization_path
           Sample.Stat "overlay" "overlay/kustomization.yaml" eq_refl).
Defined.

(** X3 on the sample tree, section by section. *)
Lemma resolved_set_layout_witness :
  Sample.resolve 3 "overlay"
  = Some (Ok (["overlay/kustomization.yaml"]
              ++ ["base/Kustomization"; "base/service.yaml";
                  "overlay/deployment.yaml"; "overlay/abs/file.yaml"]
              ++ ["overlay/patch.yaml"; "overlay/spec: {...}"]
              ++ ["overlay/crd.yaml"; "/abs/crd.yaml"]
              ++ ["overlay/p1.yaml"; "overlay/old.yaml"; "overlay/both.yaml"]
              ++ ["overlay/json.yaml"]
              ++ ["overlay/cfg.properties"; "overlay/a.env"; "overlay/b.env";
                  "overlay/one.env"]
              ++ ["/abs/secret.txt"; "overlay/s.env"])).
Proof.
  exact (resolved_set_layout
           Sample.Stat Sample.ReadFile Sample.ParseYAML 2 "overlay" _ _ _ _
           (conj eq_refl (conj eq_refl (conj eq_refl eq_refl)))).
Defined.

(** X4 on the sample tree: the set of [overlay] starts with its
    kustomization; [overlay/plain] has none and its set is empty. *)
Lemma resolved_set_starts_with_config_witness :
  (exists rest, Sample.overlayDeps = "overlay/kustomization.yaml" :: rest)
  /\ (@nil string = [] <->
      exists err, findKustomizationConfig Sample.Stat "overlay/plain" = Fail err).
Proof.
  split.
  - destruct (resolved_set_starts_with_config
                Sample.Stat Sample.ReadFile Sample.ParseYAML
                3 "overlay" Sample.overlayDeps sample_overlay_resolved)
      as (_ & Hhead).
    apply Hhead. reflexivity.
  - destruct (resolved_set_starts_with_config
                Sample.Stat Sample.ReadFile Sample.ParseYAML
                1 "overlay/plain" [] eq_refl)
      as (Hempty & _).
    exact Hempty.
Defined.

(** X9 on the sample collaborators: the command is not run for [base]. *)
Lemma readManifests_stops_at_first_failure_witness :
  SamplePipeline.read ["overlay"; "broken"; "base"]
  = ([RunCmdOutCall "kustomize"
        ["build"; "--load_restrictor"; "none"; "overlay"];
      RunCmdOutCall "kustomize"
        ["build"; "--load_restrictor"; "none"; "broken"]],
     Fail (Errorf "kustomize build: " (ErrorString "exit status 1"))).
Proof.
  apply (readManifests_stops_at_first_failure
           unit unit SamplePipeline.RunCmdOut SamplePipeline.Append
           (SamplePipeline.deployer ["overlay"; "broken"; "base"])
           ["overlay"] "broken" ["base"] ["kind: Deployment # overlay"]).
  - reflexivity.
  - constructor; [reflexivity | constructor].
  - reflexivity.
Defined.

(** X11 on the failing registry lookup. *)
Lemma registry_failure_stops_rendering_witness :
  snd (SampleFailures.render ["overlay"])
  = Fail (Errorf "retrieving debug helpers registry: "
            (ErrorString "open config: permission denied"))
  /\ Forall (fun ev => isRunCmdOut ev = false)
       (fst (SampleFailures.render ["overlay"])).
Proof.
  apply (registry_failure_stops_rendering
           unit unit unit string SampleFailures.GetDebugHelpersRegistry
           SamplePipeline.RunCmdOut SamplePipeline.Append
           SamplePipeline.ReplaceImages [SamplePipeline.transform]
           SamplePipeline.SetLabels None
           (SamplePipeline.deployer ["overlay"]) []).
  reflexivity.
Defined.

(** X12 on the sample collaborators. *)
Lemma rendering_composes_the_steps_witness :
  snd (SamplePipeline.render ["empty"; "overlay"])
  = Ok ["kind: Deployment # overlay"].
Proof.
  apply (rendering_composes_the_steps
           unit unit unit string SamplePipeline.GetDebugHelpersRegistry
           SamplePipeline.RunCmdOut SamplePipeline.Append
           SamplePipeline.ReplaceImages [SamplePipeline.transform]
           SamplePipeline.SetLabels None
           (SamplePipeline.deployer ["empty"; "overlay"]) []
           "gcr.io/debug-helpers" ["kind: Deployment # overlay"]);
    [reflexivity | reflexivity | discriminate].
Defined.

(** X13 on the sample collaborators. *)
Lemma labels_are_injected_last_witness :
  exists calls,
    fst (SamplePipeline.render ["overlay"])
    = calls ++ [SetLabelsCall ["kind: Deployment # overlay"]].
Proof.
  destruct (labels_are_injected_last
              unit unit unit string SamplePipeline.GetDebugHelpersRegistry
              SamplePipeline.RunCmdOut SamplePipeline.Append
              SamplePipeline.ReplaceImages [SamplePipeline.transform]
              SamplePipeline.SetLabels None
              (SamplePipeline.deployer ["overlay"]) []
              ["kind: Deployment # overlay"])
    as (_ & _ & _ & calls & _ & _ & _ & _ & _ & Hlog & _).
  - vm_compute. in_list.
  - exists calls. exact Hlog.
Defined.

(** X14 on a chain whose second transform fails. *)
Lemma transforms_stop_at_first_failure_witness :
  transformsLoop
    [SamplePipeline.transform; SampleFailures.failingTransform;
     SamplePipeline.transform]
    0 ["kind: Deployment"] [] (tt, "gcr.io/debug-helpers")
  = ([TransformCall 0 ["kind: Deployment"]; TransformCall 1 ["kind: Deployment"]],
     Fail (Errorf "unable to transform manifests: " (ErrorString "unknown kind"))).
Proof.
  apply (transforms_stop_at_first_failure
           unit unit string [SamplePipeline.transform] [SamplePipeline.transform]
           SampleFailures.failingTransform 0 ["kind: Deployment"] []
           (tt, "gcr.io/debug-helpers") ["kind: Deployment"]
           (ErrorString "unknown kind"));
    reflexivity.
Defined.

(** ** Which paths are in the base directory *)

Lemma string_length_append (a b : string) :
  String.length (a +:+ b) = String.length a + String.length b.
Proof.
  induction a as [|c a IH]; [reflexivity|].
  rewrite append_String. simpl. rewrite IH. reflexivity.
Qed.

Lemma upToLastSeparator_last start name :
  filepath.hasSeparator name = false ->
  filepath.upToLastSeparator (start +:+ "/" +:+ name) = start +:+ "/".
Proof.
  intros Hsep. induction start as [|c start IH].
  - rewrite !append_empty, append_String, append_empty. simpl.
    rewrite Hsep. reflexivity.
  - change (String c start +:+ "/" +:+ name)
      with (String c (start +:+ "/" +:+ name)).
    change (String c start +:+ "/") with (String c (start +:+ "/")).
    simpl. rewrite hasSeparator_append.
    change ("/" +:+ name) with (String "/" name) at 1. simpl.
    rewrite orb_true_r, IH. reflexivity.
Qed.

Lemma upToLastSeparator_without s :
  filepath.hasSeparator s = false -> filepath.upToLastSeparator s = "".
Proof.
  destruct s as [|c s]; simpl; [reflexivity|]. intros H.
  apply orb_false_iff in H as [Hc Hs]. rewrite Hs.
  change (Ascii.eqb c "/") with (Ascii.eqb c filepath.Separator).
  rewrite Hc. reflexivity.
Qed.

Lemma upToLastSeparator_absolute path :
  filepath.IsAbs path = true ->
  filepath.IsAbs (filepath.upToLastSeparator path) = true.
Proof.
  destruct path as [|c s]; [discriminate|].
  rewrite IsAbs_String. intros Hc. simpl.
  destruct (filepath.hasSeparator s).
  - rewrite IsAbs_String. exact Hc.
  - change (Ascii.eqb c "/") with (Ascii.eqb c filepath.Separator).
    rewrite Hc, IsAbs_String. exact Hc.
Qed.

Lemma Clean_absolute path :
  filepath.IsAbs path = true -> filepath.IsAbs (filepath.Clean path) = true.
Proof.
  intros Habs. unfold filepath.Clean.
  destruct path as [|c s]; [discriminate|].
  cbn [String.eqb]. cbn zeta. rewrite Habs.
  rewrite append_String, IsAbs_String. reflexivity.
Qed.

Lemma Clean_under name :
  simpleName name ->
  filepath.Clean (name +:+ "/base/") = name +:+ "/base".
Proof.
  intros Hname. pose proof Hname as (Hne & _ & _ & Hsep).
  unfold filepath.Clean. cbn zeta.
  assert (Hnonempty : (name +:+ "/base/" =? "") = false).
  { apply String.eqb_neq, string_append_nonempty. discriminate. }
  rewrite Hnonempty.
  rewrite (IsAbs_append name "/base/" Hne), (simpleName_relative _ Hsep).
  change ("/base/") with (String filepath.Separator "base/").
  rewrite Split_append, (Split_without_separator _ Hsep).
  cbn [app fold_left strings.Split Ascii.eqb Bool.eqb filepath.Separator].
  rewrite (cleanElem_simple _ _ _ Hname). reflexivity.
Qed.

(** X20. A path is in the base directory when its directory is exactly
    [base]: [base/] followed by anything without a separator is; an
    absolute path is not, a path without a separator is not, and a path in
    a directory [base] that is itself inside another directory (as in
    [overlays/base/kustomization.yaml]) is not. *)
Theorem base_directory_members :
  (forall name,
      filepath.hasSeparator name = false ->
      IsKustomizationBase ("base/" +:+ name) = true)
  /\ (forall path,
         filepath.IsAbs path = true -> IsKustomizationBase path = false)
  /\ (forall name,
         filepath.hasSeparator name = false -> IsKustomizationBase name = false)
  /\ (forall outer name,
         simpleName outer ->
         filepath.hasSeparator name = false ->
         IsKustomizationBase (outer +:+ "/base/" +:+ name) = false).
Proof.
  unfold IsKustomizationBase, filepath.Dir, basePath.
  split; [|split; [|split]].
  - intros name Hsep.
    change ("base/" +:+ name) with ("base" +:+ "/" +:+ name).
    rewrite (upToLastSeparator_last "base" name Hsep). reflexivity.
  - intros path Habs.
    pose proof (Clean_absolute _ (upToLastSeparator_absolute _ Habs)) as Hclean.
    destruct (String.eqb_spec (filepath.Clean (filepath.upToLastSeparator path))
                "base") as [Heq|_]; [|reflexivity].
    rewrite Heq in Hclean. discriminate.
  - intros name Hsep. rewrite (upToLastSeparator_without _ Hsep). reflexivity.
  - intros outer name Houter Hsep.
    replace (outer +:+ "/base/" +:+ name)
      with ((outer +:+ "/base") +:+ "/" +:+ name)
      by (rewrite string_append_assoc; reflexivity).
    rewrite (upToLastSeparator_last _ name Hsep).
    replace ((outer +:+ "/base") +:+ "/") with (outer +:+ "/base/")
      by (rewrite string_append_assoc; reflexivity).
    rewrite (Clean_under outer Houter).
    apply String.eqb_neq. intros Heq.
    apply (f_equal String.length) in Heq.
    rewrite string_length_append in Heq. simpl in Heq. lia.
Qed.

(** ** Relative directories give relative paths *)

Lemma append_nonempty_l (a b : string) : a <> "" -> a +:+ b <> "".
Proof. destruct a; [congruence | rewrite append_String; discriminate]. Qed.

Lemma Join_elements_nonempty elems :
  Forall keptElement elems -> elems <> [] -> strings.Join elems "/" <> "".
Proof.
  intros Hkept Hne. destruct Hkept as [|e rest [He _] _]; [congruence|].
  simpl. destruct rest; [exact He | apply append_nonempty_l, He].
Qed.

Lemma Clean_nonempty path : filepath.Clean path <> "".
Proof.
  unfold filepath.Clean. destruct (path =? ""); [discriminate|]. cbn zeta.
  destruct (filepath.IsAbs path) eqn:Habs.
  - rewrite append_String. discriminate.
  - pose proof (fold_cleanElem_kept false _ [] (List.Forall_nil _)
                  (Split_relative path)) as Hkept.
    destruct (fold_left _ _ _) as [|top rest] eqn:Hout; [discriminate|].
    apply Join_elements_nonempty.
    + apply Forall_rev in Hkept. exact Hkept.
    + intros Hrev. apply (f_equal (@length string)) in Hrev.
      rewrite length_rev in Hrev. discriminate.
Qed.

Lemma Join_nonempty dir name : dir <> "" -> filepath.Join dir name <> "".
Proof.
  intros Hdir. unfold filepath.Join.
  destruct (String.eqb_spec dir "") as [->|_]; [congruence|]. simpl.
  apply Clean_nonempty.
Qed.

Lemma Forall_flat_map {A B} (P : B -> Prop) (f : A -> list B) (l : list A) :
  (forall x, In x l -> Forall P (f x)) -> Forall P (flat_map f l).
Proof.
  induction l as [|x l IH]; intros H; simpl; [constructor|].
  apply Forall_app. split; [apply H; left; reflexivity|].
  apply IH. intros y Hy. apply H. right. exact Hy.
Qed.

Section RelativePaths.

Variable Stat : string -> option os.FileMode.
Variable ReadFile : string -> result string.
Variable ParseYAML : string -> result yamlDocument.

Local Abbreviation unionOfCandidates := (unionOfCandidates Stat).
Local Abbreviation resolve := (dependenciesForKustomization Stat ReadFile ParseYAML).

Variable dir : string.
Hypothesis dir_nonempty : dir <> "".
Hypothesis dir_relative : relativePath dir.

Lemma joined_relative name : relativePath (filepath.Join dir name).
Proof. exact (Join_relative dir name dir_nonempty dir_relative). Qed.

Lemma AbsolutePaths_relative paths :
  Forall relativePath paths -> Forall relativePath (AbsolutePaths dir paths).
Proof.
  intros Hpaths. unfold AbsolutePaths. apply Forall_map.
  eapply Forall_impl; [exact Hpaths|]. intros path Hpath. simpl.
  rewrite Hpath. apply joined_relative.
Qed.

Lemma restDeps_relative content :
  relativeEntries content -> Forall relativePath (restDeps dir content).
Proof.
  intros [Hcrds Hgens]. apply Forall_app in Hgens as [Hcm Hsecret].
  assert (Hgen : forall gens,
             Forall (fun g => Forall relativePath (Files g)
                              /\ Forall relativePath (Envs g)
                              /\ relativePath (Env g)) gens ->
             Forall relativePath (flat_map (generatorDeps dir) gens)).
  { intros gens Hall. apply Forall_flat_map. intros g Hin.
    rewrite List.Forall_forall in Hall.
    destruct (Hall g Hin) as (Hfiles & Henvs & Henv).
    unfold generatorDeps, effectiveEnvs.
    apply Forall_app. split; apply AbsolutePaths_relative; [exact Hfiles|].
    destruct (Env g =? ""); [exact Henvs|].
    apply Forall_app. split; [exact Henvs | repeat constructor; exact Henv]. }
  unfold restDeps. repeat (apply Forall_app; split).
  - apply Forall_flat_map. intros p _. unfold strategicMergeDeps.
    destruct (smPath p =? ""); repeat constructor. apply joined_relative.
  - apply AbsolutePaths_relative, Hcrds.
  - apply Forall_flat_map. intros p _. unfold patchDeps.
    destruct (patchPath_ptr p) as [pp|]; [|constructor].
    destruct (Path pp =? ""); repeat constructor. apply joined_relative.
  - apply Forall_flat_map. intros p _. unfold jsonPatchDeps.
    destruct (jsonPath p =? ""); repeat constructor. apply joined_relative.
  - apply Hgen, Hcm.
  - apply Hgen, Hsecret.
Qed.

Lemma unionOfCandidates_relative recurse candidates found :
  (forall c d,
      recurse (filepath.Join dir c) = Some (Ok d) -> Forall relativePath d) ->
  unionOfCandidates recurse dir candidates = Some (Ok found) ->
  Forall relativePath found.
Proof.
  intros Hrec. revert found.
  induction candidates as [|c rest IH]; intros found; simpl.
  - intros [= <-]. constructor.
  - unfold candidateDeps.
    destruct (pathExistsLocally Stat c dir) as [[|] mode].
    + destruct (os.IsDir mode).
      * destruct (recurse (filepath.Join dir c)) as [[d|e]|] eqn:Hc;
          try discriminate.
        destruct (unionOfCandidates recurse dir rest) as [[others|e]|];
          try discriminate.
        intros [= <-]. apply Forall_app. split; [exact (Hrec _ _ Hc)|].
        apply IH. reflexivity.
      * destruct (unionOfCandidates recurse dir rest) as [[others|e]|];
          try discriminate.
        intros [= <-]. constructor; [apply joined_relative|].
        apply IH. reflexivity.
    + destruct (unionOfCandidates recurse dir rest) as [[others|e]|];
        try discriminate.
      intros [= <-]. apply IH. reflexivity.
Qed.

End RelativePaths.

(** X21. When the CRDs and the generator files of every configuration
    are relative paths, the resolver returns only relative paths for a
    relative directory that is not the empty string, however the bases and
    resources are written: an absolute base or resource is listed under
    the directory that names it. *)
Theorem relative_directory_gives_relative_paths Stat ReadFile ParseYAML :
  (forall buf content,
      Unmarshal ParseYAML buf = Ok content -> relativeEntries content) ->
  forall fuel dir deps,
    dir <> "" ->
    relativePath dir ->
    dependenciesForKustomization Stat ReadFile ParseYAML fuel dir
    = Some (Ok deps) ->
    Forall relativePath deps.
Proof.
  intros Hentries fuel.
  induction fuel as [|fuel IH]; intros dir deps Hne Hrel; [discriminate|].
  rewrite resolve_S.
  destruct (findKustomizationConfig Stat dir) as [path|e] eqn:Hfind.
  2: { intros [= <-]. constructor. }
  destruct (ReadFile path) as [buf|e]; [|discriminate].
  destruct (Unmarshal ParseYAML buf) as [content|e] eqn:Hparse; [|discriminate].
  rewrite candidatesLoop_union.
  destruct (unionOfCandidates Stat _ dir _) as [[found|e]|] eqn:Hunion;
    try discriminate.
  intros H. apply restOfKustomization_appends in H. subst deps.
  destruct (located_config_name _ _ _ Hfind) as (name & _ & -> & _).
  apply Forall_app. split; [apply Forall_app; split|].
  - repeat constructor. apply Join_relative; assumption.
  - apply (unionOfCandidates_relative Stat dir Hne Hrel _ _ _) in Hunion;
      [exact Hunion|].
    intros c d Hc.
    apply (IH (filepath.Join dir c) d (Join_nonempty dir c Hne)); [|exact Hc].
    apply Join_relative; assumption.
  - apply restDeps_relative; [assumption | assumption | exact (Hentries _ _ Hparse)].
Qed.

(** X21 on the tree with absolute bases and resources: the overlay names
    the absolute directory [/shared] and the absolute file
    [/abs/file.yaml], and every path of the set returned for it is
    relative; the file is listed as [overlay/abs/file.yaml], the directory
    through the set of [overlay/shared]. *)
Lemma relative_directory_gives_relative_paths_witness :
  In "/shared" (docBases SampleAbsolute.overlayDoc)
  /\ In "/abs/file.yaml" (docResources SampleAbsolute.overlayDoc)
  /\ SampleAbsolute.resolve 2 "overlay" = Some (Ok SampleAbsolute.overlayDeps)
  /\ In (filepath.Join "overlay" "/abs/file.yaml") SampleAbsolute.overlayDeps
  /\ Forall relativePath SampleAbsolute.overlayDeps.
Proof.
  split; [left; reflexivity | split; [left; reflexivity | split; [reflexivity | split]]].
  - vm_compute. in_list.
  - apply (relative_directory_gives_relative_paths
             SampleAbsolute.Stat SampleAbsolute.ReadFile SampleAbsolute.ParseYAML)
      with (fuel := 2) (dir := "overlay").
    + intros buf content. unfold Unmarshal, SampleAbsolute.ParseYAML.
      destruct (buf =? "overlay/kustomization.yaml");
        [intros [= <-]; split; repeat constructor|].
      destruct (buf =? "overlay/shared/kustomization.yaml");
        [intros [= <-]; split; repeat constructor | discriminate].
    + discriminate.
    + reflexivity.
    + reflexivity.
Defined.

(** X18 on the sample collaborators: with nothing printed, delete is
    still called, on no manifest. *)
Lemma Cleanup_deletes_what_is_read_witness :
  Cleanup SamplePipeline.RunCmdOut SamplePipeline.Append (fun _ => None)
    (SamplePipeline.deployer ["empty"])
  = ([RunCmdOutCall "kustomize" ["build"; "--load_restrictor"; "none"; "empty"];
      DeleteCall []],
     None)
  /\ Cleanup SamplePipeline.RunCmdOut SamplePipeline.Append (fun _ => None)
       (SamplePipeline.deployer ["broken"; "overlay"])
     = ([RunCmdOutCall "kustomize"
           ["build"; "--load_restrictor"; "none"; "broken"]],
        Some (Errorf "reading manifests: "
                (Errorf "kustomize build: " (ErrorString "exit status 1")))).
Proof.
  split.
  - apply (proj1 (Cleanup_deletes_what_is_read
                    unit unit SamplePipeline.RunCmdOut SamplePipeline.Append
                    (fun _ => None) (SamplePipeline.deployer ["empty"]))).
    reflexivity.
  - apply (proj1 (proj2 (Cleanup_deletes_what_is_read
                           unit unit SamplePipeline.RunCmdOut
                           SamplePipeline.Append (fun _ => None)
                           (SamplePipeline.deployer ["broken"; "overlay"])))).
    reflexivity.
Defined.

(** X19 on the sample collaborators: with nothing printed, the text of
    the empty list is written. *)
Lemma Render_writes_what_is_rendered_witness :
  snd (Render None SamplePipeline.GetDebugHelpersRegistry
         SamplePipeline.RunCmdOut SamplePipeline.Append
         SamplePipeline.ReplaceImages [SamplePipeline.transform]
         SamplePipeline.SetLabels
         (fun manifests => strings.Join manifests "---")
         (fun text path => if text =? "" then None
                           else Some (ErrorString "disk full"))
         (SamplePipeline.deployer ["empty"]) [] false "out.yaml")
  = None.
Proof.
  apply (proj1 (proj2 (Render_writes_what_is_rendered
                         unit unit unit string None
                         SamplePipeline.GetDebugHelpersRegistry
                         SamplePipeline.RunCmdOut SamplePipeline.Append
                         SamplePipeline.ReplaceImages [SamplePipeline.transform]
                         SamplePipeline.SetLabels
                         (fun manifests => strings.Join manifests "---")
                         (fun text path => if text =? "" then None
                                           else Some (ErrorString "disk full"))
                         (SamplePipeline.deployer ["empty"]) [] false "out.yaml"))
           "gcr.io/debug-helpers" []);
    reflexivity.
Defined.

(** X20 on sample paths. *)
Lemma base_directory_members_witness :
  IsKustomizationBase "base/kustomization.yaml" = true
  /\ IsKustomizationBase "/base/kustomization.yaml" = false
  /\ IsKustomizationBase "kustomization.yaml" = false
  /\ IsKustomizationBase "overlays/base/kustomization.yaml" = false.
Proof.
  destruct base_directory_members as (Hin & Habs & Hplain & Hnested).
  split; [|split; [|split]].
  - apply (Hin "kustomization.yaml"). reflexivity.
  - apply Habs. reflexivity.
  - apply Hplain. reflexivity.
  - apply (Hnested "overlays" "kustomization.yaml");
      [repeat split; discriminate | reflexivity].
Defined.

(** * Directory parts and absolute candidates *)

(** ** The directory part of a path *)

Lemma Base_under outer :
  filepath.Base (outer +:+ "/base") = "base".
Proof.
  replace (outer +:+ "/base") with ((outer +:+ "/") +:+ "base")
    by (rewrite string_append_assoc; reflexivity).
  apply Base_last; [repeat split; discriminate|].
  right. exists outer. reflexivity.
Qed.

Lemma Dir_under_base name :
  filepath.hasSeparator name = false ->
  filepath.Dir ("base/" +:+ name) = "base".
Proof.
  intros Hsep. unfold filepath.Dir.
  change ("base/" +:+ name) with ("base" +:+ "/" +:+ name).
  rewrite (upToLastSeparator_last "base" name Hsep). reflexivity.
Qed.

Lemma Dir_nested_base outer name :
  simpleName outer ->
  filepath.hasSeparator name = false ->
  filepath.Dir (outer +:+ "/base/" +:+ name) = outer +:+ "/base".
Proof.
  intros Houter Hsep. unfold filepath.Dir.
  replace (outer +:+ "/base/" +:+ name)
    with ((outer +:+ "/base") +:+ "/" +:+ name)
    by (rewrite string_append_assoc; reflexivity).
  rewrite (upToLastSeparator_last _ name Hsep).
  replace ((outer +:+ "/base") +:+ "/") with (outer +:+ "/base/")
    by (rewrite string_append_assoc; reflexivity).
  apply (Clean_under outer Houter).
Qed.

(** C9 as stated fails: the directory that contains
    [overlays/base/kustomization.yaml] is named [base], and the path is not
    in the base directory; the same for [a/base/x]. *)
Lemma nested_base_is_not_the_base :
  filepath.Base (filepath.Dir "overlays/base/kustomization.yaml") = basePath
  /\ IsKustomizationBase "overlays/base/kustomization.yaml" = false
  /\ filepath.Base (filepath.Dir "a/base/x") = basePath
  /\ IsKustomizationBase "a/base/x" = false
  /\ ~ (forall path,
           IsKustomizationBase path = true
           <-> filepath.Base (filepath.Dir path) = basePath).
Proof.
  repeat (split; [reflexivity|]).
  intros H. specialize (H "a/base/x").
  destruct H as [_ H]. specialize (H eq_refl). discriminate H.
Qed.

(** C9, as the code has it. [IsKustomizationBase path] is true exactly when
    the directory part of [path], the whole of it and cleaned, is the
    constant [basePath]: a path [base/name] is in the base directory, and a
    path [outer/base/name] is not, although the directory that contains it
    is named [base]. [IsKustomizationPath path] is true exactly when the
    last element of [path] is one of the three accepted names, so that it
    is true of an accepted name joined under any directory. *)
Theorem helper_predicates_by_directory_part :
  (forall path,
      IsKustomizationBase path = true <-> filepath.Dir path = basePath)
  /\ (forall name,
         filepath.hasSeparator name = false ->
         filepath.Dir (basePath +:+ "/" +:+ name) = basePath
         /\ IsKustomizationBase (basePath +:+ "/" +:+ name) = true)
  /\ (forall outer name,
         simpleName outer ->
         filepath.hasSeparator name = false ->
         filepath.Dir (outer +:+ "/base/" +:+ name) = outer +:+ "/base"
         /\ filepath.Base (filepath.Dir (outer +:+ "/base/" +:+ name)) = basePath
         /\ IsKustomizationBase (outer +:+ "/base/" +:+ name) = false)
  /\ (forall path,
         IsKustomizationPath path = true
         <-> filepath.Base path = "kustomization.yaml"
             \/ filepath.Base path = "kustomization.yml"
             \/ filepath.Base path = "Kustomization")
  /\ (forall dir name,
         In name kustomizeFilePaths ->
         IsKustomizationPath (filepath.Join dir name) = true).
Proof.
  split; [|split; [|split; [|split]]].
  - intros path. unfold IsKustomizationBase. apply String.eqb_eq.
  - intros name Hsep.
    change (basePath +:+ "/" +:+ name) with ("base/" +:+ name).
    unfold IsKustomizationBase. rewrite (Dir_under_base _ Hsep).
    split; reflexivity.
  - intros outer name Houter Hsep.
    unfold IsKustomizationBase.
    rewrite (Dir_nested_base _ _ Houter Hsep), Base_under.
    split; [reflexivity | split; [reflexivity|]].
    apply String.eqb_neq. intros Heq.
    apply (f_equal String.length) in Heq.
    rewrite string_length_append in Heq.
    destruct Houter as (Hne & _). destruct outer; [congruence|].
    simpl in Heq. lia.
  - intros path. unfold IsKustomizationPath. rewrite nameAmong_In. simpl.
    intuition congruence.
  - intros dir name Hin. unfold IsKustomizationPath.
    apply nameAmong_In.
    rewrite (Base_Join dir name (kustomizeFilePaths_simple _ Hin)). exact Hin.
Qed.

(** C9 on sample paths. *)
Lemma helper_predicates_by_directory_part_witness :
  IsKustomizationBase "base/kustomization.yaml" = true
  /\ (filepath.Base (filepath.Dir "overlays/base/kustomization.yaml") = basePath
      /\ IsKustomizationBase "overlays/base/kustomization.yaml" = false)
  /\ IsKustomizationPath (filepath.Join "overlays/base" "kustomization.yml") = true
  /\ (IsKustomizationPath "a/kustomization.json" = true -> False).
Proof.
  destruct helper_predicates_by_directory_part
    as (_ & Hin & Hnested & Hpath & Hjoin).
  split; [|split; [|split]].
  - apply (Hin "kustomization.yaml"). reflexivity.
  - apply (Hnested "overlays" "kustomization.yaml");
      [repeat split; discriminate | reflexivity].
  - apply Hjoin. right. left. reflexivity.
  - intros H. apply Hpath in H. vm_compute in H.
    destruct H as [H|[H|H]]; discriminate H.
Defined.

(** ** Absolute candidates *)





Section AbsoluteCandidates.

Variable Stat : string -> option os.FileMode.
Variable ReadFile : string -> result string.
Variable ParseYAML : string -> result yamlDocument.

Local Abbreviation pathExistsLocally := (pathExistsLocally Stat).
Local Abbreviation unionOfCandidates := (unionOfCandidates Stat).
Local Abbreviation resolve := (dependenciesForKustomization Stat ReadFile ParseYAML).
Local Abbreviation parsedAndResolved := (parsedAndResolved Stat ReadFile ParseYAML).


End AbsoluteCandidates.


